(** * GoogleDriveManager (src/utils/google_drive.py): credential lifecycle
      and Drive operations, as a shallow embedding.

    The Python class keeps two fields that change ([self.creds],
    [self.service]), reads and writes one file ([self.token_path]), and
    talks to three outside parties: the token endpoint (refresh and code
    exchange), the Drive API, and the clock that decides expiry.  Each
    method is embedded as a computation in a state-and-exception monad;
    a method that raises keeps the mutations made before the raise, as
    Python does.  What an outside party answers is an argument of the
    method that asks. *)

From Stdlib Require Import ZArith List String Ascii Bool Lia.
From Stdlib.Strings Require Import Byte.
From Stdlib Require Import DecimalString.
Import ListNotations.

Set Implicit Arguments.

(** ** Python values the manager handles *)

(** Exceptions that reach the manager's [try] blocks or its callers. *)
Inductive exn : Type :=
| ValueError (msg : string)
| AttributeError (msg : string)
| FileNotFoundError (msg : string)
| UnpicklingError
| UnsupportedOperation
| TransportError (msg : string)
| RefreshError (msg : string)
| OAuthError (msg : string)
| HttpError (status : Z) (msg : string).

(** [str(e)], as used by [upload_file] and by the f-strings. *)
Definition str_exn (e : exn) : string :=
  match e with
  | ValueError m => m
  | AttributeError m => m
  | FileNotFoundError m => m
  | UnpicklingError => "pickle data was truncated"
  | UnsupportedOperation => "seek"
  | TransportError m => m
  | RefreshError m => m
  | OAuthError m => m
  | HttpError _ m => m
  end.

(** [google.oauth2.credentials.Credentials]: the attributes the manager
    reads. *)
Record Credentials : Type := mkCredentials {
  token : option string;
  refresh_token : option string;
  expiry : option Z;
  scopes : list string
}.

(** Truthiness of an optional string ([None] and [''] are falsy). *)
Definition truthy (s : option string) : bool :=
  match s with
  | Some s' => negb (String.eqb s' EmptyString)
  | None => false
  end.

(** Modelled from the spec: the [expired] attribute of the credentials
    class is library code; section 3 gives "Expired if expiry <= now".  A
    credential without an expiry does not expire. *)
Definition expired (c : Credentials) (now : Z) : bool :=
  match expiry c with
  | Some e => (e <=? now)%Z
  | None => false
  end.

(** Modelled from the spec: the [valid] attribute of the credentials class
    is library code; a credential is usable when its access token is
    present and it is not expired. *)
Definition valid (c : Credentials) (now : Z) : bool :=
  match token c with
  | Some _ => negb (expired c now)
  | None => false
  end.

(** What [pickle.load] can hand back from a record the manager wrote:
    [None] or a credentials object. *)
Definition pyval : Type := option Credentials.

(** [pickle.dumps] / [pickle.loads] on token records.  [pickle_loads]
    answers [None] where [pickle.load] raises. *)
Class Pickle : Type := {
  pickle_dumps : pyval -> list byte;
  pickle_loads : list byte -> option pyval
}.

(** The two facts about the pickle format the development relies on. *)
Record PickleLaws (P : Pickle) : Prop := {
  loads_dumps : forall o : pyval, pickle_loads (pickle_dumps o) = Some o;
  loads_truncated : forall (o : pyval) (n : nat),
      n < List.length (pickle_dumps o) ->
      pickle_loads (firstn n (pickle_dumps o)) = None
}.

(** The [file_content] argument of [upload_file]: bytes, a read position,
    and what the object's [seek] attribute does. *)
Inductive seek_support : Type :=
| NoSeekAttr
| SeekRaises (e : exn)
| SeekWorks.

Record Stream : Type := mkStream {
  stream_data : list byte;
  stream_pos : nat;
  stream_seek : seek_support
}.

Definition hasattr_seek (f : Stream) : bool :=
  match stream_seek f with
  | NoSeekAttr => false
  | _ => true
  end.

(** Bytes a reader gets from the object's current position on. *)
Definition remaining (f : Stream) : list byte :=
  skipn (stream_pos f) (stream_data f).

(** The dictionaries sent as request bodies. *)
Inductive jvalue : Type :=
| JStr (s : string)
| JList (l : list string).

Definition dict : Type := list (string * jvalue).

Record MediaIoBaseUpload : Type := mkMedia {
  media_fd : Stream;
  media_mimetype : string;
  media_resumable : bool
}.

Inductive drive_request : Type :=
| FilesCreate (body : dict) (media_body : option MediaIoBaseUpload)
              (fields : string)
| FilesList (pageSize : Z) (fields : string) (q : string).

(** A file resource in a response: string attributes by name. *)
Definition file_resource : Type := list (string * string).

Fixpoint dict_get (k : string) (d : file_resource) : option string :=
  match d with
  | [] => None
  | (k', v) :: d' => if String.eqb k k' then Some v else dict_get k d'
  end.

(** ** Answers of the outside parties *)

Inductive refresh_outcome : Type :=
| RefreshOk (new_token : string) (new_expiry : Z)
            (new_refresh_token : option string)
| RefreshRaises (e : exn).

Inductive fetch_outcome : Type :=
| FetchOk (c : Credentials)
| FetchRaises (e : exn).

Inductive create_outcome : Type :=
| CreateOk (file : file_resource)
| CreateRaises (e : exn).

Inductive list_outcome : Type :=
| ListOk (files : option (list file_resource))
| ListRaises (e : exn).

(** ** State *)

(** Credentials objects have identity: [refresh] mutates the object in
    place and the service handle keeps a reference to the object it was
    built with. *)
Definition loc : Type := nat.

Record Service : Type := mkService {
  svc_credentials : option loc    (* build(..., credentials=self.creds) *)
}.

(** Calls the manager hands to the network libraries: a refresh of the
    credential [c], a code exchange, and a Drive request together with the
    handle's credentials object as it is at that time. *)
Inductive event : Type :=
| EvRefresh (c : Credentials)
| EvFetchToken (code : string)
| EvExecute (c : option Credentials) (at_time : Z) (req : drive_request).

Record State : Type := mkState {
  creds : option loc;                 (* self.creds *)
  service : option Service;           (* self.service *)
  heap : list Credentials;            (* credentials objects *)
  token_file : option (list byte);    (* the file at self.token_path *)
  secrets_file : bool;                (* self.credentials_path exists *)
  clock : Z;                          (* current time *)
  stdout : list string;               (* lines printed *)
  trace : list event                  (* network calls, oldest first *)
}.

(** [GoogleDriveManager.__init__], given the surroundings. *)
Definition init (tf : option (list byte)) (sf : bool) (now : Z) : State :=
  mkState None None [] tf sf now [] [].

Definition deref (st : State) (l : loc) : option Credentials :=
  nth_error (heap st) l.

(** The object [self.creds] refers to. *)
Definition creds_value (st : State) : pyval :=
  match creds st with
  | Some l => deref st l
  | None => None
  end.

Fixpoint list_set {A : Type} (l : list A) (i : nat) (x : A) : list A :=
  match l, i with
  | [], _ => []
  | _ :: t, O => x :: t
  | h :: t, S j => h :: list_set t j x
  end.

(** ** The monad *)

Inductive outcome (A : Type) : Type :=
| Return (a : A)
| Raise (e : exn).

Arguments Return {A} a.
Arguments Raise {A} e.

Definition M (A : Type) : Type := State -> outcome A * State.

Definition ret {A : Type} (a : A) : M A := fun st => (Return a, st).

Definition raise {A : Type} (e : exn) : M A := fun st => (Raise e, st).

Definition bind {A B : Type} (m : M A) (k : A -> M B) : M B :=
  fun st =>
    match m st with
    | (Return a, st') => k a st'
    | (Raise e, st') => (Raise e, st')
    end.

(** [try: m  except Exception as e: h e] *)
Definition try_except {A : Type} (m : M A) (h : exn -> M A) : M A :=
  fun st =>
    match m st with
    | (Return a, st') => (Return a, st')
    | (Raise e, st') => h e st'
    end.

Definition gets {A : Type} (f : State -> A) : M A :=
  fun st => (Return (f st), st).

Definition modify (f : State -> State) : M unit :=
  fun st => (Return tt, f st).

Declare Scope py_scope.
Delimit Scope py_scope with py.
Notation "x <- m ;; k" := (bind m (fun x => k))
  (at level 61, m at next level, right associativity) : py_scope.
Notation "m ;; k" := (bind m (fun _ => k))
  (at level 61, right associativity) : py_scope.
Local Open Scope py_scope.

(** Field updates. *)
Definition with_creds (c : option loc) (st : State) : State :=
  mkState c (service st) (heap st) (token_file st) (secrets_file st)
          (clock st) (stdout st) (trace st).

Definition with_service (s : option Service) (st : State) : State :=
  mkState (creds st) s (heap st) (token_file st) (secrets_file st)
          (clock st) (stdout st) (trace st).

Definition with_heap (h : list Credentials) (st : State) : State :=
  mkState (creds st) (service st) h (token_file st) (secrets_file st)
          (clock st) (stdout st) (trace st).

Definition with_token_file (f : option (list byte)) (st : State) : State :=
  mkState (creds st) (service st) (heap st) f (secrets_file st)
          (clock st) (stdout st) (trace st).

Definition with_clock (t : Z) (st : State) : State :=
  mkState (creds st) (service st) (heap st) (token_file st) (secrets_file st)
          t (stdout st) (trace st).

Definition with_stdout (o : list string) (st : State) : State :=
  mkState (creds st) (service st) (heap st) (token_file st) (secrets_file st)
          (clock st) o (trace st).

Definition with_trace (t : list event) (st : State) : State :=
  mkState (creds st) (service st) (heap st) (token_file st) (secrets_file st)
          (clock st) (stdout st) t.

Definition print (line : string) : M unit :=
  modify (fun st => with_stdout (stdout st ++ [line]) st).

Definition emit (ev : event) : M unit :=
  modify (fun st => with_trace (trace st ++ [ev]) st).

(** A new credentials object; answers its location. *)
Definition alloc (c : Credentials) : M loc :=
  fun st => (Return (List.length (heap st)), with_heap (heap st ++ [c]) st).

(** ** The methods of [GoogleDriveManager] *)

Section Manager.

Context {P : Pickle}.

(** [is_authenticated]: [self.creds is not None and self.creds.valid]. *)
Definition is_authenticated : M bool :=
  gets (fun st =>
          match creds_value st with
          | Some c => valid c (clock st)
          | None => false
          end).

(** [os.path.exists(self.token_path)] *)
Definition token_path_exists : M bool :=
  gets (fun st =>
          match token_file st with
          | Some _ => true
          | None => false
          end).

(** [open(self.token_path, 'wb')]: creates the file or cuts it to length
    zero. *)
Definition open_wb : M unit := modify (with_token_file (Some [])).

(** Bytes reaching the open file. *)
Definition file_write (bs : list byte) : M unit :=
  modify (fun st =>
            with_token_file
              (Some (match token_file st with
                     | Some old => old ++ bs
                     | None => bs
                     end)) st).

(** [_save_credentials]: open for writing, then [pickle.dump(self.creds)]. *)
Definition _save_credentials : M unit :=
  open_wb ;;
  o <- gets creds_value ;;
  file_write (pickle_dumps o).

(** [_save_credentials] stopped after the file was opened and [n] bytes of
    the pickle reached it. *)
Definition _save_credentials_interrupted (n : nat) : M unit :=
  open_wb ;;
  o <- gets creds_value ;;
  file_write (firstn n (pickle_dumps o)).

(** [pickle.load(token)] on the bytes of the file. *)
Definition pickle_load (b : list byte) : M pyval :=
  match pickle_loads b with
  | Some o => ret o
  | None => raise UnpicklingError
  end.

(** [self.creds = o] for a freshly made object [o]. *)
Definition assign_creds (o : pyval) : M unit :=
  match o with
  | Some c => l <- alloc c ;; modify (with_creds (Some l))
  | None => modify (with_creds None)
  end.

(** [creds.refresh(Request())]: on success the object at [l] is updated in
    place; a new refresh token replaces the old one only when issued. *)
Definition refresh (l : loc) (c : Credentials) (net : refresh_outcome)
  : M unit :=
  emit (EvRefresh c) ;;
  match net with
  | RefreshOk tok exp rt =>
      modify (fun st =>
                with_heap
                  (list_set (heap st) l
                     (mkCredentials (Some tok)
                        (match rt with
                         | Some r => Some r
                         | None => refresh_token c
                         end)
                        (Some exp) (scopes c))) st)
  | RefreshRaises e => raise e
  end.

(** [load_credentials] *)
Definition load_credentials (net : refresh_outcome) : M bool :=
  ex <- token_path_exists ;;
  (if ex then
     b <- gets (fun st => match token_file st with
                          | Some b => b
                          | None => []
                          end) ;;
     o <- pickle_load b ;;
     assign_creds o
   else ret tt) ;;
  cur <- gets creds ;;
  (match cur with
   | Some l =>
       o <- gets (fun st => deref st l) ;;
       now <- gets clock ;;
       match o with
       | Some c =>
           if expired c now && truthy (refresh_token c) then
             try_except
               (refresh l c net ;; _save_credentials)
               (fun e =>
                  print (String.append "Failed to refresh credentials: "
                                       (str_exn e)) ;;
                  modify (with_creds None))
           else ret tt
       | None => ret tt
       end
   | None => ret tt
   end) ;;
  is_authenticated.

(** [Flow.from_client_secrets_file]: needs the client-secret file. *)
Definition from_client_secrets_file : M unit :=
  ex <- gets secrets_file ;;
  if ex then ret tt
  else raise (FileNotFoundError "No such file or directory").

(** [flow.fetch_token(code=code)] then [flow.credentials]. *)
Definition fetch_token (code : string) (net : fetch_outcome)
  : M Credentials :=
  emit (EvFetchToken code) ;;
  match net with
  | FetchOk c => ret c
  | FetchRaises e => raise e
  end.

(** [authenticate_from_code] *)
Definition authenticate_from_code (code redirect_uri : string)
    (state : option string) (net : fetch_outcome) : M bool :=
  try_except
    (from_client_secrets_file ;;
     c <- fetch_token code net ;;
     assign_creds (Some c) ;;
     _save_credentials ;;
     ret true)
    (fun e =>
       print (String.append "Authentication failed: " (str_exn e)) ;;
       ret false).

(** [revoke_authentication] *)
Definition revoke_authentication : M unit :=
  ex <- token_path_exists ;;
  (if ex then modify (with_token_file None) else ret tt) ;;
  modify (with_creds None) ;;
  modify (with_service None).

Definition not_authenticated_msg : string :=
  "Not authenticated. Please authenticate first.".

(** [_get_service].  [build] is taken to succeed; the handle it makes
    keeps the reference to [self.creds] it is given. *)
Definition _get_service : M Service :=
  s <- gets service ;;
  match s with
  | Some svc => ret svc
  | None =>
      ok <- is_authenticated ;;
      if negb ok then raise (ValueError not_authenticated_msg)
      else
        c <- gets creds ;;
        modify (with_service (Some (mkService c))) ;;
        ret (mkService c)
  end.

(** The credentials object a handle sends its requests with, as it is
    now. *)
Definition svc_creds_value (st : State) (svc : Service) : pyval :=
  match svc_credentials svc with
  | Some l => deref st l
  | None => None
  end.

Definition no_refresh_fields_msg : string :=
  "The credentials do not contain the necessary fields need to refresh the access token.".

(** What the Drive client does with the handle's credentials object before
    it sends a request ([credentials.before_request]): a valid credential
    is used as it is; one that is not valid is first refreshed in place,
    [renew] being the token endpoint's answer; without a refresh token, or
    when the refresh raises, the client raises and sends nothing.  A
    handle without a credentials object cannot arise, [_get_service]
    builds one only on a credential it has just read. *)
Definition before_request (svc : Service) (renew : refresh_outcome)
  : M unit :=
  match svc_credentials svc with
  | Some l =>
      o <- gets (fun st => deref st l) ;;
      now <- gets clock ;;
      match o with
      | Some c =>
          if valid c now then ret tt
          else
            match refresh_token c with
            | Some _ => refresh l c renew
            | None => raise (RefreshError no_refresh_fields_msg)
            end
      | None => raise (RefreshError no_refresh_fields_msg)
      end
  | None => raise (RefreshError no_refresh_fields_msg)
  end.

(** [service.files().create(...).execute()]: the client prepares the
    credential, then sends; [net] is what the transfer and the request
    come to.  The event records the request as it is sent, with the
    handle's credentials object as it is at that moment. *)
Definition execute_create (svc : Service) (req : drive_request)
    (renew : refresh_outcome) (net : create_outcome) : M file_resource :=
  before_request svc renew ;;
  c <- gets (fun st => svc_creds_value st svc) ;;
  now <- gets clock ;;
  emit (EvExecute c now req) ;;
  match net with
  | CreateOk f => ret f
  | CreateRaises e => raise e
  end.

(** [service.files().list(...).execute()] *)
Definition execute_list (svc : Service) (req : drive_request)
    (renew : refresh_outcome) (net : list_outcome)
  : M (option (list file_resource)) :=
  before_request svc renew ;;
  c <- gets (fun st => svc_creds_value st svc) ;;
  now <- gets clock ;;
  emit (EvExecute c now req) ;;
  match net with
  | ListOk fs => ret fs
  | ListRaises e => raise e
  end.

(** [file_content.seek(0)] *)
Definition seek0 (f : Stream) : M Stream :=
  match stream_seek f with
  | SeekWorks => ret (mkStream (stream_data f) 0 SeekWorks)
  | SeekRaises e => raise e
  | NoSeekAttr => raise (AttributeError "object has no attribute 'seek'")
  end.

(** [MediaIoBaseUpload(fd, mimetype=..., resumable=...)]: the constructor
    seeks the stream to its end to measure it, so it needs a stream that
    can seek; an object without [seek] makes it raise.  [media_fd] is the
    stream as the constructor received it; the client reads every chunk at
    the offset it seeks to itself. *)
Definition new_MediaIoBaseUpload (fd : Stream) (mimetype : string)
    (resumable : bool) : M MediaIoBaseUpload :=
  match stream_seek fd with
  | SeekWorks => ret (mkMedia fd mimetype resumable)
  | SeekRaises e => raise e
  | NoSeekAttr => raise (AttributeError "object has no attribute 'seek'")
  end.

Inductive UploadResult : Type :=
| UploadSuccess (file_id name link : option string)
| UploadFailure (error : string).

(** The default of the [mimetype] parameter in the signature. *)
Definition upload_file_default_mimetype : string := "application/pdf".

(** [file_metadata] of [upload_file]: the name, and the parent folder when
    [folder_id] is truthy. *)
Definition upload_metadata (filename : string) (folder_id : option string)
  : dict :=
  let file_metadata : dict := [("name"%string, JStr filename)] in
  match folder_id with
  | Some fid =>
      if truthy folder_id
      then file_metadata ++ [("parents"%string, JList [fid])]
      else file_metadata
  | None => file_metadata
  end.

Definition upload_fields : string := "id, name, webViewLink".

(** [upload_file]; [mimetype = None] stands for a call that leaves the
    argument out; [renew] and [net] are the answers of the token endpoint
    and of the Drive service, should the call come to ask them. *)
Definition upload_file (file_content : Stream) (filename : string)
    (mimetype : option string) (folder_id : option string)
    (renew : refresh_outcome) (net : create_outcome) : M UploadResult :=
  let mimetype := match mimetype with
                  | Some m => m
                  | None => upload_file_default_mimetype
                  end in
  try_except
    (svc <- _get_service ;;
     let file_metadata := upload_metadata filename folder_id in
     fc <- (if hasattr_seek file_content then seek0 file_content
            else ret file_content) ;;
     media <- new_MediaIoBaseUpload fc mimetype true ;;
     file <- execute_create svc
               (FilesCreate file_metadata (Some media) upload_fields)
               renew net ;;
     ret (UploadSuccess (dict_get "id" file) (dict_get "name" file)
                        (dict_get "webViewLink" file)))
    (fun e => ret (UploadFailure (str_exn e))).

(** [create_folder] *)
Definition create_folder (folder_name : string)
    (parent_folder_id : option string)
    (renew : refresh_outcome) (net : create_outcome)
  : M (option string) :=
  try_except
    (svc <- _get_service ;;
     let file_metadata : dict :=
       [("name"%string, JStr folder_name);
        ("mimeType"%string, JStr "application/vnd.google-apps.folder")] in
     let file_metadata :=
       match parent_folder_id with
       | Some pid =>
           if truthy parent_folder_id
           then file_metadata ++ [("parents"%string, JList [pid])]
           else file_metadata
       | None => file_metadata
       end in
     folder <- execute_create svc (FilesCreate file_metadata None "id")
                 renew net ;;
     ret (dict_get "id" folder))
    (fun e =>
       print (String.append "Failed to create folder: " (str_exn e)) ;;
       ret None).

(** [list_files] *)
Definition list_files (page_size : Z) (folder_id : option string)
    (renew : refresh_outcome) (net : list_outcome)
  : M (list file_resource) :=
  try_except
    (svc <- _get_service ;;
     let query :=
       match folder_id with
       | Some fid =>
           if truthy folder_id
           then String.append "'" (String.append fid "' in parents")
           else EmptyString
       | None => EmptyString
       end in
     results <- execute_list svc
                  (FilesList page_size
                     "files(id, name, mimeType, createdTime, webViewLink)"
                     query) renew net ;;
     ret (match results with
          | Some fs => fs
          | None => []
          end))
    (fun e =>
       print (String.append "Failed to list files: " (str_exn e)) ;;
       ret []).

(** ** Sequences of calls *)

Inductive call : Type :=
| CallLoad (net : refresh_outcome)
| CallAuthenticate (code redirect_uri : string) (state : option string)
                   (net : fetch_outcome)
| CallRevoke
| CallUpload (file_content : Stream) (filename : string)
             (mimetype folder_id : option string)
             (renew : refresh_outcome) (net : create_outcome)
| CallCreateFolder (folder_name : string) (parent : option string)
                   (renew : refresh_outcome) (net : create_outcome)
| CallListFiles (page_size : Z) (folder_id : option string)
                (renew : refresh_outcome) (net : list_outcome)
| Elapse (dt : N).

(** State after one call; what a call raises is dropped here. *)
Definition step (st : State) (c : call) : State :=
  match c with
  | CallLoad net => snd (load_credentials net st)
  | CallAuthenticate code uri s net =>
      snd (authenticate_from_code code uri s net st)
  | CallRevoke => snd (revoke_authentication st)
  | CallUpload f n m d renew net => snd (upload_file f n m d renew net st)
  | CallCreateFolder n p renew net => snd (create_folder n p renew net st)
  | CallListFiles k d renew net => snd (list_files k d renew net st)
  | Elapse dt => with_clock (clock st + Z.of_N dt)%Z st
  end.

Definition run (cs : list call) (st : State) : State :=
  fold_left step cs st.

End Manager.

(** The three Drive operations among the calls. *)
Definition is_resource_op (c : call) : bool :=
  match c with
  | CallUpload _ _ _ _ _ _ => true
  | CallCreateFolder _ _ _ _ => true
  | CallListFiles _ _ _ _ => true
  | _ => false
  end.





(** A Drive operation that reaches its request once it has a handle and a
    usable credential: a folder creation, a listing, or an upload of an
    object whose [seek] works. *)
Definition reaches_request (c : call) : bool :=
  match c with
  | CallUpload f _ _ _ _ _ =>
      match stream_seek f with
      | SeekWorks => true
      | _ => false
      end
  | CallCreateFolder _ _ _ _ => true
  | CallListFiles _ _ _ _ => true
  | _ => false
  end.

(** [file_metadata] of [create_folder]. *)
Definition folder_metadata (folder_name : string)
    (parent_folder_id : option string) : dict :=
  let file_metadata : dict :=
    [("name"%string, JStr folder_name);
     ("mimeType"%string, JStr "application/vnd.google-apps.folder")] in
  match parent_folder_id with
  | Some pid =>
      if truthy parent_folder_id
      then file_metadata ++ [("parents"%string, JList [pid])]
      else file_metadata
  | None => file_metadata
  end.

(** The request of [list_files]. *)
Definition list_request (page_size : Z) (folder_id : option string)
  : drive_request :=
  FilesList page_size "files(id, name, mimeType, createdTime, webViewLink)"
    match folder_id with
    | Some fid =>
        if truthy folder_id
        then String.append "'" (String.append fid "' in parents")
        else EmptyString
    | None => EmptyString
    end.

(** The answer of the token endpoint that a Drive operation carries. *)
Definition call_renew (c : call) : option refresh_outcome :=
  match c with
  | CallUpload _ _ _ _ renew _ => Some renew
  | CallCreateFolder _ _ renew _ => Some renew
  | CallListFiles _ _ renew _ => Some renew
  | _ => None
  end.

(** The credentials object [c] after a refresh answered with [tok], [exp]
    and [rt]. *)
Definition renewed (c : Credentials) (tok : string) (exp : Z)
    (rt : option string) : Credentials :=
  mkCredentials (Some tok)
                (match rt with
                 | Some r => Some r
                 | None => refresh_token c
                 end)
                (Some exp) (scopes c).

(** Between [st] and [st'] the manager's fields are the same, printed
    lines and trace apart. *)
Definition same_manager (st st' : State) : Prop :=
  creds st' = creds st /\ service st' = service st /\
  heap st' = heap st /\ token_file st' = token_file st /\
  secrets_file st' = secrets_file st /\ clock st' = clock st.

(** What the Drive client may do to the credentials objects between [st]
    and [st']: nothing, or the refresh in place of the object the handle
    of [st'] was built on, which was not valid in [st]. *)
Definition client_refresh (renew : refresh_outcome) (st st' : State)
  : Prop :=
  heap st' = heap st \/
  exists svc l c tok exp rt,
    service st' = Some svc /\ svc_credentials svc = Some l /\
    deref st l = Some c /\ valid c (clock st) = false /\
    renew = RefreshOk tok exp rt /\
    heap st' = list_set (heap st) l (renewed c tok exp rt).

(** What a Drive operation leaves alone: the credential in memory, the
    token file, the client-secret file and the clock; of the credentials
    objects it changes at most the one of its handle, through the client's
    refresh. *)
Definition operation_frame (renew : refresh_outcome) (st st' : State)
  : Prop :=
  creds st' = creds st /\ token_file st' = token_file st /\
  secrets_file st' = secrets_file st /\ clock st' = clock st /\
  client_refresh renew st st'.

(** ** A record format to run the model on

    A small stand-in for the pickle format: a unary length header followed
    by the fields.  It is used where a statement needs concrete bytes. *)

Module TestPickle.

Fixpoint enc_nat (n : nat) : list byte :=
  match n with
  | O => [x00]
  | S m => x01 :: enc_nat m
  end.

Fixpoint dec_nat (b : list byte) : option (nat * list byte) :=
  match b with
  | x00 :: r => Some (O, r)
  | x01 :: r =>
      match dec_nat r with
      | Some (n, r') => Some (S n, r')
      | None => None
      end
  | _ => None
  end.

Definition enc_str (s : string) : list byte :=
  let bs := list_byte_of_string s in
  enc_nat (List.length bs) ++ bs.

Definition dec_str (b : list byte) : option (string * list byte) :=
  match dec_nat b with
  | Some (n, r) =>
      if List.length r <? n then None
      else Some (string_of_list_byte (firstn n r), skipn n r)
  | None => None
  end.

Definition enc_Z (z : Z) : list byte :=
  if (z <? 0)%Z then x01 :: enc_nat (Z.to_nat (- z))
  else x00 :: enc_nat (Z.to_nat z).

Definition dec_Z (b : list byte) : option (Z * list byte) :=
  match b with
  | x00 :: r =>
      match dec_nat r with
      | Some (n, r') => Some (Z.of_nat n, r')
      | None => None
      end
  | x01 :: r =>
      match dec_nat r with
      | Some (n, r') => Some ((- Z.of_nat n)%Z, r')
      | None => None
      end
  | _ => None
  end.

Definition enc_opt {A : Type} (enc : A -> list byte) (o : option A)
  : list byte :=
  match o with
  | None => [x00]
  | Some a => x01 :: enc a
  end.

Definition dec_opt {A : Type} (dec : list byte -> option (A * list byte))
    (b : list byte) : option (option A * list byte) :=
  match b with
  | x00 :: r => Some (None, r)
  | x01 :: r =>
      match dec r with
      | Some (a, r') => Some (Some a, r')
      | None => None
      end
  | _ => None
  end.

Fixpoint enc_strs (l : list string) : list byte :=
  match l with
  | [] => [x00]
  | s :: l' => x01 :: enc_str s ++ enc_strs l'
  end.

(** [fuel] bounds the number of items; the byte count is always enough. *)
Fixpoint dec_strs (fuel : nat) (b : list byte)
  : option (list string * list byte) :=
  match fuel with
  | O => None
  | S fuel' =>
      match b with
      | x00 :: r => Some ([], r)
      | x01 :: r =>
          match dec_str r with
          | Some (s, r') =>
              match dec_strs fuel' r' with
              | Some (l, r'') => Some (s :: l, r'')
              | None => None
              end
          | None => None
          end
      | _ => None
      end
  end.

Definition enc_creds (c : Credentials) : list byte :=
  enc_opt enc_str (token c) ++ enc_opt enc_str (refresh_token c)
  ++ enc_opt enc_Z (expiry c) ++ enc_strs (scopes c).

Definition dec_creds (b : list byte) : option (Credentials * list byte) :=
  match dec_opt dec_str b with
  | Some (t, r1) =>
      match dec_opt dec_str r1 with
      | Some (rt, r2) =>
          match dec_opt dec_Z r2 with
          | Some (e, r3) =>
              match dec_strs (S (List.length r3)) r3 with
              | Some (sc, r4) => Some (mkCredentials t rt e sc, r4)
              | None => None
              end
          | None => None
          end
      | None => None
      end
  | None => None
  end.

Definition body (o : pyval) : list byte := enc_opt enc_creds o.

Definition dumps (o : pyval) : list byte :=
  enc_nat (List.length (body o)) ++ body o.

Definition loads (b : list byte) : option pyval :=
  match dec_nat b with
  | Some (n, r) =>
      if Nat.eqb (List.length r) n then
        match dec_opt dec_creds r with
        | Some (o, []) => Some o
        | _ => None
        end
      else None
  | None => None
  end.

Definition test_pickle : Pickle :=
  {| pickle_dumps := dumps; pickle_loads := loads |}.

End TestPickle.

(** ** Concrete states and calls used in examples *)

Module Samples.
Import TestPickle.

Definition drive_scope : string :=
  "https://www.googleapis.com/auth/drive.file".

(** A complete credential that expires at time 100. *)
Definition cred_100 : Credentials :=
  mkCredentials (Some "ya29.first"%string) (Some "1//refresh"%string)
                (Some 100%Z) [drive_scope].

(** A second credential, expiring at time 500. *)
Definition cred_500 : Credentials :=
  mkCredentials (Some "ya29.second"%string) (Some "1//refresh"%string)
                (Some 500%Z) [drive_scope].

(** Bytes that are no pickle stream. *)
Definition corrupt_bytes : list byte := [x2a; x2a].

(** A new manager at time 0: nothing stored. *)
Definition st_new : State := init None true 0%Z.

(** A new manager at time 0 whose token file is corrupt. *)
Definition st_corrupt : State := init (Some corrupt_bytes) true 0%Z.

(** After the code exchange answered with [cred_100]. *)
Definition st_authed : State :=
  snd (@authenticate_from_code test_pickle "abc123" "https://app/callback"
         None (FetchOk cred_100) st_new).

(** The same manager once time 200 is reached: the credential is past its
    expiry. *)
Definition st_expired : State := @step test_pickle st_authed (Elapse 200).

(** A content object read up to offset 3. *)
Definition pdf_bytes : list byte := [x25; x50; x44; x46; x2d; x31].

Definition content_seekable : Stream := mkStream pdf_bytes 3 SeekWorks.

Definition content_no_seek : Stream := mkStream pdf_bytes 3 NoSeekAttr.

Definition created_file : file_resource :=
  [("id", "f-1"); ("name", "report.pdf");
   ("webViewLink", "https://drive.example/f-1")]%string.

(** A token endpoint that answers a refresh with a token good until 500. *)
Definition renew_ok : refresh_outcome := RefreshOk "ya29.second" 500 None.

Definition upload_report : call :=
  CallUpload content_seekable "report.pdf" None None renew_ok
             (CreateOk created_file).

(** Authorize, list once (the handle is built), let the credential
    expire. *)
Definition calls_until_expiry : list call :=
  [ CallAuthenticate "abc123" "https://app/callback" None (FetchOk cred_100);
    CallListFiles 10 None renew_ok (ListOk (Some []));
    Elapse 200 ].

(** The manager after these calls: a handle is cached, the credential is
    past its expiry. *)
Definition st_handle_expired : State :=
  @run test_pickle calls_until_expiry st_new.

(** Then upload. *)
Definition calls_after_expiry : list call :=
  calls_until_expiry ++ [upload_report].

(** Or first run [load_credentials] while the token endpoint rejects the
    refresh token: the manager then holds no credential at all. *)
Definition calls_after_rejected_refresh : list call :=
  calls_until_expiry
    ++ [CallLoad (RefreshRaises (RefreshError "invalid_grant"))].

End Samples.

(** ** The constructor's paths and the authorization URL *)

Definition TOKEN_FILE : string := "token.pickle".

Definition CREDENTIALS_FILE : string := "credentials.json".

(** The two path attributes set by the constructor. *)
Record Paths : Type := mkPaths {
  credentials_path : string;
  token_path : string
}.

(** [a or d] for an optional string [a]. *)
Definition or_else (a : option string) (d : string) : string :=
  match a with
  | Some s => if truthy a then s else d
  | None => d
  end.

(** The path assignments of [__init__]; the other two attributes start as
    [None], see [init]. *)
Definition __init__ (credentials_path token_path : option string) : Paths :=
  mkPaths (or_else credentials_path CREDENTIALS_FILE)
          (or_else token_path TOKEN_FILE).

Definition newline : string := String (ascii_of_nat 10) EmptyString.

(** The message of the [FileNotFoundError] of [get_authorization_url]. *)
Definition credentials_not_found_msg (paths : Paths) : string :=
  String.append "Credentials file not found: "
    (String.append (credentials_path paths)
       (String.append newline
          "Please download credentials.json from Google Cloud Console")).

(** [get_authorization_url].  The flow is built from the client-secret
    file and computes the URL and the state locally; [answer] is the pair
    it computes. *)
Definition get_authorization_url (paths : Paths) (redirect_uri : string)
    (answer : string * string) : M (string * string) :=
  ex <- gets secrets_file ;;
  if negb ex then raise (FileNotFoundError (credentials_not_found_msg paths))
  else
    from_client_secrets_file ;;
    ret (fst answer, snd answer).

(** ** Predicates on calls, events and pairs of states *)

(** A code exchange that the token endpoint answers with a credential. *)
Definition is_successful_exchange (c : call) : bool :=
  match c with
  | CallAuthenticate _ _ _ (FetchOk _) => true
  | _ => false
  end.

Definition is_drive_request (ev : event) : bool :=
  match ev with
  | EvExecute _ _ _ => true
  | _ => false
  end.

(** Between [st] and [st'] neither the credential in memory, nor any
    credentials object, nor the token file, nor the clock changed. *)
Definition credentials_untouched (st st' : State) : Prop :=
  creds st' = creds st /\ heap st' = heap st /\
  token_file st' = token_file st /\ secrets_file st' = secrets_file st /\
  clock st' = clock st.

(** The token file is absent or holds the complete pickle of a
    credential. *)
Definition record_well_formed {P : Pickle} (st : State) : Prop :=
  token_file st = None \/
  exists c : Credentials, token_file st = Some (pickle_dumps (Some c)).

(** ** More concrete states *)

Module MoreSamples.
Import TestPickle Samples.

(** Expired at 100, and its refresh token is the empty string. *)
Definition cred_no_refresh : Credentials :=
  mkCredentials (Some "ya29.first"%string) (Some EmptyString)
                (Some 100%Z) [drive_scope].

(** A manager at time 200 that holds [cred_no_refresh] and has no token
    file. *)
Definition st_no_refresh : State :=
  mkState (Some 0) None [cred_no_refresh] None true 200%Z [] [].

(** The manager of [st_handle_expired] after its token file was removed:
    the expired credential is in memory only, and the cached handle refers
    to the same object. *)
Definition st_in_memory_expired : State :=
  with_token_file None st_handle_expired.

End MoreSamples.

(** ** Python string operations used by the scripts *)

Module PyStr.

(** [p in s] for strings. *)
Fixpoint occurs (p s : string) : bool :=
  String.prefix p s ||
  match s with
  | EmptyString => false
  | String _ s' => occurs p s'
  end.

(** [s.replace(old, new)] for a non-empty [old]: scanning from the left,
    each occurrence of [old] is replaced and the scan goes on behind it.
    [skip] counts the characters of a matched occurrence still to drop. *)
Fixpoint replace_from (old new : string) (skip : nat) (s : string)
  : string :=
  match s with
  | EmptyString => EmptyString
  | String ch rest =>
      match skip with
      | S k => replace_from old new k rest
      | O =>
          if String.prefix old s
          then String.append new
                 (replace_from old new (String.length old - 1) rest)
          else String ch (replace_from old new 0 rest)
      end
  end.

Definition replace (old new s : string) : string :=
  replace_from old new 0 s.

(** [c.lower()] for a character of an ASCII string. *)
Definition lower_ascii (c : ascii) : ascii :=
  let n := nat_of_ascii c in
  if (65 <=? n) && (n <=? 90) then ascii_of_nat (n + 32) else c.

(** [s.lower()] on ASCII strings. *)
Fixpoint lower (s : string) : string :=
  match s with
  | EmptyString => EmptyString
  | String c s' => String (lower_ascii c) (lower s')
  end.

(** [f"{s:n}"]: [s] padded with spaces on the right to width [n]. *)
Definition ljust (n : nat) (s : string) : string :=
  String.append s
    (string_of_list_ascii (repeat " "%char (n - String.length s))).


End PyStr.

(** ** scripts/optimize_model.py *)

Module OptimizeModel.

(** What a checkpoint can hold: tensors, strings, numbers and
    dictionaries with string keys (in insertion order, keys distinct). *)
#[warnings="-register-all"]
Inductive pyobj : Type :=
| Tensor (data : list Z)
| PyStr (s : string)
| PyInt (n : Z)
| PyDict (items : list (string * pyobj)).

Section Dicts.

Context {V : Type}.

(** [d[k]], if [k in d]. *)
Fixpoint dict_lookup (k : string) (d : list (string * V)) : option V :=
  match d with
  | [] => None
  | (k', v) :: d' => if String.eqb k k' then Some v else dict_lookup k d'
  end.

(** [d[k] = v]: an existing key keeps its place, a new one goes last. *)
Fixpoint dict_store (d : list (string * V)) (k : string) (v : V)
  : list (string * V) :=
  match d with
  | [] => [(k, v)]
  | (k', v') :: d' =>
      if String.eqb k k' then (k, v) :: d'
      else (k', v') :: dict_store d' k v
  end.

End Dicts.

Definition is_tensor (v : pyobj) : bool :=
  match v with
  | Tensor _ => true
  | _ => false
  end.

(** [extract_state_dict] *)
Definition extract_state_dict (ckpt : pyobj) : pyobj :=
  match ckpt with
  | PyDict items =>
      match dict_lookup "state_dict" items with
      | Some sd => sd
      | None =>
          match items with
          | (_, v0) :: _ => if is_tensor v0 then ckpt else ckpt
          | [] => ckpt
          end
      end
  | _ => ckpt
  end.

(** The dictionary [minimal] that [action_strip] saves, for the loaded
    checkpoint [ckpt] and the formatted time [saved_at]. *)
Definition minimal (ckpt : pyobj) (saved_at : string) : pyobj :=
  PyDict [("state_dict"%string, extract_state_dict ckpt);
          ("saved_at"%string, PyStr saved_at)].

(** [k.replace('module.', '')] *)
Definition clean_key (k : string) : string :=
  PyStr.replace "module." "" k.

(** [cleaned = {k.replace('module.', ''): v for k, v in state.items()}] *)
Definition cleaned {V : Type} (state : list (string * V))
  : list (string * V) :=
  fold_left (fun d kv => dict_store d (clean_key (fst kv)) (snd kv))
            state [].

Inductive model_class : Type :=
| ECGCNN (input_length num_classes : Z)
| ECGLSTM (num_classes : Z).

Definition quote : string := String (ascii_of_nat 34) EmptyString.

Definition unsupported_model_msg : string :=
  String.append "Unsupported model name. Use "
    (String.append quote (String.append "ecgcnn" (String.append quote
       (String.append " or "
          (String.append quote (String.append "ecglstm" quote)))))).

(** The choice of the model class in [action_torchscript]. *)
Definition select_model (model_name : string) (input_length num_classes : Z)
  : outcome model_class :=
  if String.eqb (PyStr.lower model_name) "ecgcnn"
     || PyStr.occurs "cnn" (PyStr.lower model_name)
  then Return (ECGCNN input_length num_classes)
  else if String.eqb (PyStr.lower model_name) "ecglstm"
          || String.eqb (PyStr.lower model_name) "lstm"
  then Return (ECGLSTM num_classes)
  else Raise (ValueError unsupported_model_msg).

End OptimizeModel.

(** ** test_setup.py *)

Module TestSetup.

Definition check_mark : string :=
  String (ascii_of_nat 226)
    (String (ascii_of_nat 156) (String (ascii_of_nat 147) EmptyString)).

Definition cross_mark : string :=
  String (ascii_of_nat 226)
    (String (ascii_of_nat 156) (String (ascii_of_nat 151) EmptyString)).




Definition required_entries : list string :=
  [ "credentials.json"; "token.pickle" ]%string.

(** The loop of [check_gitignore], from the state
    [(all_present, lines)]. *)
Fixpoint check_entries (content : string) (entries : list string)
    (all_present : bool) (lines : list string) : bool * list string :=
  match entries with
  | [] => (all_present, lines)
  | entry :: rest =>
      if PyStr.occurs entry content
      then check_entries content rest all_present
             (lines ++ [String.append check_mark
                          (String.append " "
                             (String.append (PyStr.ljust 25 entry)
                                            " - Protected"))])
      else check_entries content rest false
             (lines ++ [String.append cross_mark
                          (String.append " "
                             (String.append (PyStr.ljust 25 entry)
                                " - NOT in .gitignore (SECURITY RISK!)"))])
  end.

(** [check_gitignore]: the lines printed and the value returned or the
    exception raised; [gitignore] is the text of the file, [None] when
    there is no such file and [open] raises. *)
Definition check_gitignore (gitignore : option string)
  : list string * outcome bool :=
  let header :=
    String.append newline
      (String.append newline
         (String.append "Checking .gitignore security..." newline)) in
  match gitignore with
  | None => ([header], Raise (FileNotFoundError "No such file or directory"))
  | Some content =>
      match check_entries content required_entries true [header] with
      | (all_present, lines) => (lines, Return all_present)
      end
  end.

End TestSetup.

(** * Properties *)

(** ** The stand-in record format obeys the pickle laws *)

Module TestPickleFacts.
Import TestPickle.

Lemma dec_enc_nat (n : nat) (r : list byte) :
  dec_nat (enc_nat n ++ r) = Some (n, r).
Proof.
  induction n as [|n IH]; simpl; [reflexivity|].
  now rewrite IH.
Qed.

Lemma length_enc_nat (n : nat) : List.length (enc_nat n) = S n.
Proof. induction n; simpl; congruence. Qed.

Lemma dec_nat_cut (n k : nat) :
  k <= n -> dec_nat (firstn k (enc_nat n)) = None.
Proof.
  revert k; induction n as [|n IH]; intros k Hk.
  - assert (k = 0) by lia; subst; reflexivity.
  - destruct k as [|k]; [reflexivity|].
    simpl. rewrite IH by lia. reflexivity.
Qed.

Lemma dec_enc_str (s : string) (r : list byte) :
  dec_str (enc_str s ++ r) = Some (s, r).
Proof.
  unfold dec_str, enc_str.
  rewrite <- app_assoc, dec_enc_nat.
  set (bs := list_byte_of_string s).
  assert (Hlt : (List.length (bs ++ r) <? List.length bs) = false).
  { apply Nat.ltb_ge. rewrite length_app. lia. }
  rewrite Hlt.
  rewrite firstn_app, Nat.sub_diag, firstn_all, firstn_O, app_nil_r.
  rewrite skipn_app, Nat.sub_diag, skipn_all, skipn_O.
  unfold bs. now rewrite string_of_list_byte_of_string.
Qed.

Lemma dec_enc_Z (z : Z) (r : list byte) :
  dec_Z (enc_Z z ++ r) = Some (z, r).
Proof.
  unfold enc_Z.
  destruct (z <? 0)%Z eqn:Hz; simpl; rewrite dec_enc_nat.
  - apply Z.ltb_lt in Hz. rewrite Z2Nat.id by lia.
    now rewrite Z.opp_involutive.
  - apply Z.ltb_ge in Hz. now rewrite Z2Nat.id by lia.
Qed.

Lemma dec_enc_opt {A : Type} (enc : A -> list byte)
    (dec : list byte -> option (A * list byte)) :
  (forall a r, dec (enc a ++ r) = Some (a, r)) ->
  forall o r, dec_opt dec (enc_opt enc o ++ r) = Some (o, r).
Proof.
  intros H [a|] r; simpl; [now rewrite H | reflexivity].
Qed.

Lemma length_enc_strs (l : list string) :
  List.length l < List.length (enc_strs l).
Proof.
  induction l as [|s l IH]; simpl; [lia|].
  rewrite length_app. lia.
Qed.

Lemma dec_enc_strs (l : list string) (r : list byte) (fuel : nat) :
  List.length l < fuel -> dec_strs fuel (enc_strs l ++ r) = Some (l, r).
Proof.
  revert fuel; induction l as [|s l IH]; intros fuel Hf;
    (destruct fuel as [|fuel]; [lia|]); simpl; [reflexivity|].
  rewrite <- app_assoc, dec_enc_str, IH by (simpl in Hf; lia).
  reflexivity.
Qed.

Lemma dec_enc_creds (c : Credentials) (r : list byte) :
  dec_creds (enc_creds c ++ r) = Some (c, r).
Proof.
  unfold dec_creds, enc_creds.
  repeat rewrite <- app_assoc.
  rewrite (dec_enc_opt enc_str dec_str dec_enc_str).
  rewrite (dec_enc_opt enc_str dec_str dec_enc_str).
  rewrite (dec_enc_opt enc_Z dec_Z dec_enc_Z).
  rewrite dec_enc_strs.
  - now destruct c.
  - pose proof (length_enc_strs (scopes c)).
    rewrite length_app. lia.
Qed.

Lemma loads_dumps_test (o : pyval) : loads (dumps o) = Some o.
Proof.
  unfold loads, dumps.
  rewrite dec_enc_nat, Nat.eqb_refl.
  unfold body.
  rewrite <- (app_nil_r (enc_opt enc_creds o)).
  now rewrite (dec_enc_opt enc_creds dec_creds dec_enc_creds).
Qed.

Lemma loads_truncated_test (o : pyval) (n : nat) :
  n < List.length (dumps o) -> loads (firstn n (dumps o)) = None.
Proof.
  unfold loads, dumps. intros Hn.
  rewrite length_app, length_enc_nat in Hn.
  rewrite firstn_app, length_enc_nat.
  destruct (Nat.le_gt_cases n (List.length (body o))) as [Hle|Hgt].
  - replace (n - S (List.length (body o))) with 0 by lia.
    rewrite firstn_O, app_nil_r.
    now rewrite dec_nat_cut.
  - rewrite firstn_all2 by (rewrite length_enc_nat; lia).
    rewrite dec_enc_nat.
    assert (Hneq : Nat.eqb
                     (List.length
                        (firstn (n - S (List.length (body o))) (body o)))
                     (List.length (body o)) = false).
    { apply Nat.eqb_neq. rewrite length_firstn. lia. }
    now rewrite Hneq.
Qed.

Lemma test_pickle_laws : PickleLaws test_pickle.
Proof.
  split; simpl.
  - exact loads_dumps_test.
  - exact loads_truncated_test.
Qed.

End TestPickleFacts.

(** ** Unfolding the monad *)

Ltac py_unfold :=
  unfold load_credentials, authenticate_from_code, revoke_authentication,
    _get_service, upload_file, create_folder, list_files,
    execute_create, execute_list, seek0, hasattr_seek,
    from_client_secrets_file, fetch_token, refresh, assign_creds,
    pickle_load, _save_credentials, _save_credentials_interrupted,
    file_write, open_wb, token_path_exists, is_authenticated,
    alloc, emit, print, modify, gets, try_except, bind, raise, ret in *.

Ltac py_run := py_unfold; simpl in *.

(** ** load_credentials on a record that cannot be used *)

Section LoadFacts.

Context {P : Pickle}.

(** With no token file and nothing in memory, [load_credentials] answers
    [False] and touches nothing. *)
Lemma load_credentials_nothing_stored (st : State) (net : refresh_outcome) :
  token_file st = None -> creds st = None ->
  load_credentials net st = (Return false, st).
Proof.
  intros Hf Hc. py_run. unfold creds_value.
  rewrite Hf, Hc. simpl. rewrite Hc. reflexivity.
Qed.

(** With no token file, [load_credentials] returns normally whatever is in
    memory and whatever the token endpoint answers. *)
Lemma load_credentials_missing_returns (st : State) (net : refresh_outcome) :
  token_file st = None ->
  exists b st', load_credentials net st = (Return b, st').
Proof.
  intros Hf. py_run. rewrite Hf. simpl.
  destruct (creds st) as [l|]; simpl; [|eauto].
  destruct (deref st l) as [c|]; simpl; [|eauto].
  destruct (expired c (clock st) && truthy (refresh_token c)); simpl;
    [|eauto].
  destruct net; simpl; eauto.
Qed.

(** A token file that does not unpickle makes [load_credentials] raise,
    before any field is assigned. *)
Lemma load_credentials_unparsable_raises (st : State) (net : refresh_outcome)
    (b : list byte) :
  token_file st = Some b -> pickle_loads b = None ->
  load_credentials net st = (Raise UnpicklingError, st).
Proof.
  intros Hf Hl. py_run. rewrite Hf. simpl. rewrite Hf, Hl. reflexivity.
Qed.

End LoadFacts.

(** C2, as amended.  On a missing record [load_credentials] never raises,
    and with no credential in memory it answers [False] and leaves the
    state as it was; on a record that does not unpickle the error of
    [pickle.load] reaches the caller and the state is as before. *)
Theorem load_credentials_missing_or_unparsable
    {P : Pickle} (st : State) (net : refresh_outcome) :
  (token_file st = None ->
     (exists b st', load_credentials net st = (Return b, st')) /\
     (creds st = None -> load_credentials net st = (Return false, st)))
  /\
  (forall b, token_file st = Some b -> pickle_loads b = None ->
     load_credentials net st = (Raise UnpicklingError, st)).
Proof.
  split.
  - intros Hf. split.
    + now apply load_credentials_missing_returns.
    + intros Hc. now apply load_credentials_nothing_stored.
  - intros b Hf Hl. now apply load_credentials_unparsable_raises with b.
Qed.

(** The amended C2 at a new manager with no token file, and at one whose
    token file holds two stray bytes. *)
Lemma load_credentials_missing_or_unparsable_witness :
  @load_credentials TestPickle.test_pickle
     (RefreshRaises (TransportError "unused")) Samples.st_new
    = (Return false, Samples.st_new)
  /\
  @load_credentials TestPickle.test_pickle
     (RefreshRaises (TransportError "unused")) Samples.st_corrupt
    = (Raise UnpicklingError, Samples.st_corrupt).
Proof.
  split.
  - exact (proj2 (proj1 (@load_credentials_missing_or_unparsable
                           TestPickle.test_pickle Samples.st_new
                           (RefreshRaises (TransportError "unused")))
                        eq_refl) eq_refl).
  - exact (proj2 (@load_credentials_missing_or_unparsable
                    TestPickle.test_pickle Samples.st_corrupt
                    (RefreshRaises (TransportError "unused")))
                 Samples.corrupt_bytes eq_refl eq_refl).
Defined.

(** C2 as stated fails: with a corrupt token file [load_credentials] does
    not return at all, it raises. *)
Lemma load_credentials_corrupt_record_counterexample :
  token_file Samples.st_corrupt = Some Samples.corrupt_bytes /\
  pickle_loads (Pickle := TestPickle.test_pickle) Samples.corrupt_bytes = None /\
  fst (@load_credentials TestPickle.test_pickle
         (RefreshRaises (TransportError "unused")) Samples.st_corrupt)
    = Raise UnpicklingError /\
  (forall b : bool,
      fst (@load_credentials TestPickle.test_pickle
             (RefreshRaises (TransportError "unused")) Samples.st_corrupt)
        <> Return b).
Proof.
  repeat split; try reflexivity.
  intros b. vm_compute. discriminate.
Qed.

(** ** A refresh that fails *)

Section RefreshFacts.

Context {P : Pickle}.

Lemma deref_alloc (st : State) (c : Credentials) (l : loc) (c0 : Credentials) :
  deref st l = Some c0 ->
  nth_error (heap st ++ [c]) l = Some c0.
Proof.
  unfold deref. intros H.
  rewrite nth_error_app1; [assumption|].
  apply nth_error_Some. congruence.
Qed.

Lemma deref_fresh (h : list Credentials) (c : Credentials) :
  nth_error (h ++ [c]) (List.length h) = Some c.
Proof.
  rewrite nth_error_app2 by lia. now rewrite Nat.sub_diag.
Qed.

(** The refresh branch when the credential was already in memory and no
    token file exists. *)
Lemma load_credentials_refresh_raises_in_memory
    (st : State) (l : loc) (c : Credentials) (e : exn) :
  token_file st = None -> creds st = Some l -> deref st l = Some c ->
  expired c (clock st) = true -> truthy (refresh_token c) = true ->
  load_credentials (RefreshRaises e) st =
    (Return false,
     with_creds None
       (with_stdout
          (stdout st ++
             [String.append "Failed to refresh credentials: " (str_exn e)])
          (with_trace (trace st ++ [EvRefresh c]) st))).
Proof.
  intros Hf Hc Hd He Hr. py_run. unfold deref in *.
  rewrite Hf. simpl. rewrite Hc. simpl. rewrite Hd. simpl.
  rewrite He, Hr. simpl. reflexivity.
Qed.

(** The refresh branch when the credential comes from the token file. *)
Lemma load_credentials_refresh_raises_loaded
    (st : State) (b : list byte) (c : Credentials) (e : exn) :
  token_file st = Some b -> pickle_loads b = Some (Some c) ->
  expired c (clock st) = true -> truthy (refresh_token c) = true ->
  load_credentials (RefreshRaises e) st =
    (Return false,
     with_creds None
       (with_stdout
          (stdout st ++
             [String.append "Failed to refresh credentials: " (str_exn e)])
          (with_trace (trace st ++ [EvRefresh c])
             (with_heap (heap st ++ [c]) st)))).
Proof.
  intros Hf Hl He Hr. py_run. unfold deref in *.
  rewrite Hf. simpl. rewrite Hf, Hl. simpl.
  rewrite deref_fresh. simpl.
  rewrite He, Hr. simpl. reflexivity.
Qed.

End RefreshFacts.

(** C3, as amended.  When the credential that [load_credentials] holds
    after reading the token file is expired and has a refresh token, and
    the refresh raises, for whatever reason, then [load_credentials] does
    not raise: it prints the cause, sets [self.creds] to [None], leaves
    the token file, the service handle and every credentials object as
    they were, and answers [False]. *)
Theorem load_credentials_refresh_failure
    {P : Pickle} (st : State) (c : Credentials) (e : exn) :
  (token_file st = None /\ creds_value st = Some c) \/
  (exists b, token_file st = Some b /\ pickle_loads b = Some (Some c)) ->
  expired c (clock st) = true ->
  truthy (refresh_token c) = true ->
  exists st',
    load_credentials (RefreshRaises e) st = (Return false, st') /\
    creds st' = None /\
    token_file st' = token_file st /\
    service st' = service st /\
    (forall l c0, deref st l = Some c0 -> deref st' l = Some c0) /\
    stdout st' =
      stdout st ++
        [String.append "Failed to refresh credentials: " (str_exn e)] /\
    trace st' = trace st ++ [EvRefresh c].
Proof.
  intros [[Hf Hv]|[b [Hf Hl]]] He Hr.
  - unfold creds_value in Hv.
    destruct (creds st) as [l|] eqn:Hc; [|discriminate].
    eexists. split.
    + now apply load_credentials_refresh_raises_in_memory with (l := l) (c := c).
    + simpl. repeat split; auto.
  - eexists. split.
    + now apply load_credentials_refresh_raises_loaded with (b := b) (c := c).
    + simpl. repeat split; auto.
      intros l c0 Hd. unfold deref; simpl. now apply deref_alloc.
Qed.

(** The amended C3 at the manager whose stored credential expired at 100,
    asked at time 200, with the network down. *)
Lemma load_credentials_refresh_failure_witness :
  exists st',
    @load_credentials TestPickle.test_pickle
       (RefreshRaises (TransportError "connection reset")) Samples.st_expired
      = (Return false, st') /\
    creds st' = None /\
    token_file st' = token_file Samples.st_expired /\
    service st' = service Samples.st_expired /\
    (forall l c0, deref Samples.st_expired l = Some c0 ->
                  deref st' l = Some c0) /\
    stdout st' =
      stdout Samples.st_expired ++
        [String.append "Failed to refresh credentials: "
                       (str_exn (TransportError "connection reset"))] /\
    trace st' = trace Samples.st_expired ++ [EvRefresh Samples.cred_100].
Proof.
  apply (@load_credentials_refresh_failure TestPickle.test_pickle
           Samples.st_expired Samples.cred_100
           (TransportError "connection reset")).
  - right. exists (TestPickle.dumps (Some Samples.cred_100)).
    split; vm_compute; reflexivity.
  - vm_compute; reflexivity.
  - vm_compute; reflexivity.
Defined.

(** C3 as stated fails: with the network down, [load_credentials] raises
    nothing, drops the credential it held, and answers exactly what it
    answers when the token endpoint rejects the refresh token. *)
Lemma load_credentials_transient_failure_counterexample :
  creds_value Samples.st_expired = Some Samples.cred_100 /\
  fst (@load_credentials TestPickle.test_pickle
         (RefreshRaises (TransportError "connection reset"))
         Samples.st_expired) = Return false /\
  creds (snd (@load_credentials TestPickle.test_pickle
                (RefreshRaises (TransportError "connection reset"))
                Samples.st_expired)) = None /\
  fst (@load_credentials TestPickle.test_pickle
         (RefreshRaises (RefreshError "invalid_grant"))
         Samples.st_expired) = Return false.
Proof.
  repeat split; vm_compute; reflexivity.
Qed.

(** ** A code exchange that fails *)

(** C4, as amended.  When the token exchange raises, or the client-secret
    file is missing, [authenticate_from_code] answers [False]; the cause
    goes to standard output only; the token file, [self.creds], the
    credentials objects and the service handle are as before. *)
Theorem authenticate_from_code_failure
    {P : Pickle} (st : State) (code redirect_uri : string)
    (state : option string) (e : exn) :
  exists st',
    authenticate_from_code code redirect_uri state (FetchRaises e) st
      = (Return false, st') /\
    token_file st' = token_file st /\
    creds st' = creds st /\
    heap st' = heap st /\
    service st' = service st /\
    stdout st' =
      stdout st ++
        [String.append "Authentication failed: "
           (str_exn (if secrets_file st then e
                     else FileNotFoundError "No such file or directory"))].
Proof.
  py_run. destruct (secrets_file st) eqn:Hs; simpl.
  - eexists. split; [reflexivity|]. simpl. repeat split.
  - eexists. split; [reflexivity|]. simpl. repeat split.
Qed.

(** C4 as stated fails: a transport error during the exchange raises
    nothing; the answer is [False], the same as for a rejected code, so the
    cause does not reach the caller. *)
Lemma authenticate_from_code_failure_counterexample :
  fst (@authenticate_from_code TestPickle.test_pickle
         "abc123" "https://app/callback" None
         (FetchRaises (TransportError "connection reset")) Samples.st_new)
    = Return false /\
  fst (@authenticate_from_code TestPickle.test_pickle
         "abc123" "https://app/callback" None
         (FetchRaises (OAuthError "invalid_grant")) Samples.st_new)
    = Return false.
Proof.
  split; vm_compute; reflexivity.
Qed.

(** ** The service handle *)

Section ServiceFacts.

Lemma get_service_cached (st : State) (svc : Service) :
  service st = Some svc -> _get_service st = (Return svc, st).
Proof.
  intros Hs. unfold _get_service, bind, gets. simpl. now rewrite Hs.
Qed.

Lemma get_service_rejects (st : State) :
  service st = None -> fst (is_authenticated st) = Return false ->
  _get_service st = (Raise (ValueError not_authenticated_msg), st).
Proof.
  intros Hs Ha. py_run. rewrite Hs. simpl.
  injection Ha as Ha. now rewrite Ha.
Qed.

Lemma get_service_builds (st : State) :
  service st = None -> fst (is_authenticated st) = Return true ->
  _get_service st =
    (Return (mkService (creds st)),
     with_service (Some (mkService (creds st))) st).
Proof.
  intros Hs Ha. py_run. rewrite Hs. simpl.
  injection Ha as Ha. now rewrite Ha.
Qed.

(** [_get_service] changes nothing but [self.service]. *)
Lemma get_service_frame (st st1 : State) (r : outcome Service) :
  _get_service st = (r, st1) ->
  trace st1 = trace st /\ clock st1 = clock st /\ heap st1 = heap st /\
  creds st1 = creds st /\ token_file st1 = token_file st /\
  stdout st1 = stdout st.
Proof.
  py_run. destruct (service st) as [svc|]; simpl.
  - intros H; injection H as <- <-. repeat split.
  - destruct (creds_value st) as [c|]; simpl.
    + destruct (valid c (clock st)); simpl;
        intros H; injection H as <- <-; repeat split.
    + intros H; injection H as <- <-. repeat split.
Qed.

(** What the Drive client does to the state before it sends. *)

Lemma list_set_lookup {A : Type} (h : list A) (l : nat) (x c : A) :
  nth_error h l = Some c -> nth_error (list_set h l x) l = Some x.
Proof.
  revert l; induction h as [|a h IH]; intros [|l] H; simpl in *;
    try discriminate; auto.
Qed.

(** A valid credential is used as it is. *)
Lemma before_request_valid (st : State) (svc : Service) (c : Credentials)
    (renew : refresh_outcome) :
  svc_creds_value st svc = Some c -> valid c (clock st) = true ->
  before_request svc renew st = (Return tt, st).
Proof.
  unfold svc_creds_value, before_request, bind, gets, ret.
  destruct (svc_credentials svc) as [l|]; [|discriminate].
  intros Hd Hv. simpl. rewrite Hd, Hv. reflexivity.
Qed.

(** The client touches nothing of the manager but the handle's own
    credentials object, and that only by a refresh of a credential that
    was not valid. *)
Lemma before_request_effects (st st2 : State) (svc : Service)
    (renew : refresh_outcome) (r : outcome unit) :
  before_request svc renew st = (r, st2) ->
  creds st2 = creds st /\ service st2 = service st /\
  token_file st2 = token_file st /\ secrets_file st2 = secrets_file st /\
  clock st2 = clock st /\ stdout st2 = stdout st /\
  ((trace st2 = trace st /\ heap st2 = heap st) \/
   exists l c,
     svc_credentials svc = Some l /\ deref st l = Some c /\
     valid c (clock st) = false /\
     trace st2 = trace st ++ [EvRefresh c] /\
     (heap st2 = heap st \/
      exists tok exp rt,
        renew = RefreshOk tok exp rt /\
        heap st2 = list_set (heap st) l (renewed c tok exp rt))).
Proof.
  unfold before_request, refresh, bind, gets, ret, raise, emit, modify.
  destruct (svc_credentials svc) as [l|]; simpl.
  - destruct (deref st l) as [c|] eqn:Hd; simpl.
    + destruct (valid c (clock st)) eqn:Hv; simpl.
      * intros H; injection H as <- <-. repeat split. now left.
      * destruct (refresh_token c) as [rt|] eqn:Hrt; simpl.
        -- destruct renew as [tok exp rt'|e]; simpl;
             intros H; injection H as <- <-; simpl; repeat split;
             right; exists l, c; repeat split; auto.
           right. exists tok, exp, rt'. split; [reflexivity|].
           unfold renewed. now rewrite Hrt.
        -- intros H; injection H as <- <-. repeat split. now left.
    + intros H; injection H as <- <-. repeat split. now left.
  - intros H; injection H as <- <-. repeat split. now left.
Qed.

(** What the client's preparation adds to the trace. *)
Lemma before_request_trace (st st2 : State) (svc : Service)
    (renew : refresh_outcome) (r : outcome unit) :
  before_request svc renew st = (r, st2) ->
  exists pre,
    (pre = [] \/ exists c0, pre = [EvRefresh c0]) /\
    trace st2 = trace st ++ pre.
Proof.
  intros Hb.
  destruct (before_request_effects st svc renew Hb)
    as (_ & _ & _ & _ & _ & _ & [[Ht _]|(l & c & _ & _ & _ & Ht & _)]).
  - exists []. split; [now left|]. now rewrite app_nil_r.
  - exists [EvRefresh c]. split; [right; eauto | exact Ht].
Qed.


(** [upload_file], step by step: the handle, the rewind, the media body,
    the client's preparation of the credential, the request. *)
Lemma upload_file_unfold (st : State) (f : Stream) (filename : string)
    (mimetype folder_id : option string) (renew : refresh_outcome)
    (net : create_outcome) :
  upload_file f filename mimetype folder_id renew net st =
    match _get_service st with
    | (Raise e, st1) => (Return (UploadFailure (str_exn e)), st1)
    | (Return svc, st1) =>
        match stream_seek f with
        | NoSeekAttr =>
            (Return (UploadFailure "object has no attribute 'seek'"), st1)
        | SeekRaises e => (Return (UploadFailure (str_exn e)), st1)
        | SeekWorks =>
            match before_request svc renew st1 with
            | (Raise e, st2) => (Return (UploadFailure (str_exn e)), st2)
            | (Return _, st2) =>
                (Return (match net with
                         | CreateOk file =>
                             UploadSuccess (dict_get "id" file)
                                           (dict_get "name" file)
                                           (dict_get "webViewLink" file)
                         | CreateRaises e => UploadFailure (str_exn e)
                         end),
                 with_trace
                   (trace st2 ++
                      [EvExecute (svc_creds_value st2 svc) (clock st2)
                         (FilesCreate (upload_metadata filename folder_id)
                            (Some (mkMedia
                                     (mkStream (stream_data f) 0 SeekWorks)
                                     (match mimetype with
                                      | Some m => m
                                      | None => upload_file_default_mimetype
                                      end) true))
                            upload_fields)]) st2)
            end
        end
    end.
Proof.
  unfold upload_file, try_except, bind.
  destruct (_get_service st) as [[svc|e] st1]; [|reflexivity].
  unfold hasattr_seek, seek0, new_MediaIoBaseUpload, ret, raise.
  destruct (stream_seek f) as [| e |] eqn:Hk; simpl; rewrite ?Hk; simpl;
    try reflexivity.
  unfold execute_create, bind.
  destruct (before_request svc renew st1) as [[[]|e] st2]; [|reflexivity].
  unfold gets, emit, modify, ret, raise. simpl.
  destruct net; reflexivity.
Qed.

(** What one upload adds to the trace: at most a refresh by the client,
    and then at most one request, which carries the rewound stream. *)
Lemma upload_file_trace (st : State) (f : Stream) (filename : string)
    (mimetype folder_id : option string) (renew : refresh_outcome)
    (net : create_outcome) :
  exists pre,
    (pre = [] \/ exists c0, pre = [EvRefresh c0]) /\
    (trace (snd (upload_file f filename mimetype folder_id renew net st))
       = trace st ++ pre \/
     exists c t,
       stream_seek f = SeekWorks /\
       trace (snd (upload_file f filename mimetype folder_id renew net st))
         = trace st ++ pre ++
             [EvExecute c t
                (FilesCreate (upload_metadata filename folder_id)
                   (Some (mkMedia (mkStream (stream_data f) 0 SeekWorks)
                            (match mimetype with
                             | Some m => m
                             | None => upload_file_default_mimetype
                             end) true))
                   upload_fields)]).
Proof.
  rewrite upload_file_unfold.
  destruct (_get_service st) as [[svc|e] st1] eqn:Hs;
    destruct (get_service_frame st Hs) as [Ht _].
  - destruct (stream_seek f) as [| e |] eqn:Hk.
    + exists []. split; [now left|]. left. simpl. now rewrite app_nil_r.
    + exists []. split; [now left|]. left. simpl. now rewrite app_nil_r.
    + destruct (before_request svc renew st1) as [[[]|e] st2] eqn:Hb;
        destruct (before_request_effects st1 svc renew Hb)
          as (_ & _ & _ & _ & _ & _ & [[Ht2 _]|(l & c & _ & _ & _ & Ht2 & _)]);
        simpl; rewrite Ht2, Ht.
      * exists []. split; [now left|]. right.
        exists (svc_creds_value st2 svc), (clock st2). split; reflexivity.
      * exists [EvRefresh c]. split; [right; eauto|]. right.
        exists (svc_creds_value st2 svc), (clock st2).
        split; [reflexivity|]. now rewrite <- app_assoc.
      * exists []. split; [now left|]. left. now rewrite app_nil_r.
      * exists [EvRefresh c]. split; [right; eauto|]. now left.
  - exists []. split; [now left|]. left. simpl. now rewrite app_nil_r.
Qed.

End ServiceFacts.

(** ** upload_file: mimetype and stream position *)

(** C5, as amended.  An upload that leaves [mimetype] out behaves as one
    that passes ['application/pdf']: any request it sends carries a media
    body of that type, and with a handle, a stream that can seek and a
    credential the client can use the request is sent.  Before the request
    the trace can hold the one refresh the Drive client makes for a
    credential that is not valid. *)
Theorem upload_file_default_mimetype_is_pdf
    (st : State) (f : Stream) (filename : string)
    (folder_id : option string) (renew : refresh_outcome)
    (net : create_outcome) :
  upload_file f filename None folder_id renew net st
    = upload_file f filename (Some "application/pdf"%string) folder_id
        renew net st
  /\
  (exists pre,
     (pre = [] \/ exists c0, pre = [EvRefresh c0]) /\
     (trace (snd (upload_file f filename None folder_id renew net st))
        = trace st ++ pre \/
      exists c t fc,
        trace (snd (upload_file f filename None folder_id renew net st)) =
          trace st ++ pre ++
            [EvExecute c t
               (FilesCreate (upload_metadata filename folder_id)
                  (Some (mkMedia fc "application/pdf"%string true))
                  upload_fields)]))
  /\
  (forall svc st1 st2,
      _get_service st = (Return svc, st1) ->
      stream_seek f = SeekWorks ->
      before_request svc renew st1 = (Return tt, st2) ->
      trace (snd (upload_file f filename None folder_id renew net st)) =
        trace st2 ++
          [EvExecute (svc_creds_value st2 svc) (clock st)
             (FilesCreate (upload_metadata filename folder_id)
                (Some (mkMedia (mkStream (stream_data f) 0 SeekWorks)
                               "application/pdf"%string true))
                upload_fields)]).
Proof.
  split; [reflexivity|]. split.
  - destruct (upload_file_trace st f filename None folder_id renew net)
      as (pre & Hpre & [Ht|(c & t & _ & Ht)]).
    + exists pre. split; [exact Hpre|]. now left.
    + exists pre. split; [exact Hpre|]. right. eauto.
  - intros svc st1 st2 Hs Hk Hb.
    destruct (get_service_frame st Hs) as (_ & Hc & _).
    destruct (before_request_effects st1 svc renew Hb)
      as (_ & _ & _ & _ & Hc2 & _).
    rewrite upload_file_unfold, Hs, Hk, Hb. simpl.
    rewrite Hc2, Hc. reflexivity.
Qed.

(** C5 as stated fails: the upload that names no mimetype sends
    ['application/pdf'], which is not the generic binary type
    ['application/octet-stream']. *)
Lemma upload_file_default_mimetype_counterexample :
  trace (snd (upload_file Samples.content_seekable
                "report.pdf"%string None None Samples.renew_ok
                (CreateOk Samples.created_file) Samples.st_authed))
    = trace Samples.st_authed ++
        [EvExecute (Some Samples.cred_100) 0
           (FilesCreate [("name"%string, JStr "report.pdf"%string)]
              (Some (mkMedia (mkStream Samples.pdf_bytes 0 SeekWorks)
                             "application/pdf"%string true))
              "id, name, webViewLink"%string)]
  /\ "application/pdf"%string <> "application/octet-stream"%string.
Proof.
  split; [vm_compute; reflexivity | discriminate].
Qed.

(** C9.  In every upload call the content stream is rewound before the
    transfer begins: whatever the state, the arguments and the answers,
    a request that [upload_file] sends carries the stream at offset 0,
    offering all the bytes of the content object, wherever that object
    stood before the call.  And the request is sent, so rewound, whenever
    the call has a handle, a stream that can seek and a credential the
    client can use. *)
Theorem upload_file_rewinds_before_transfer
    (st : State) (f : Stream) (filename : string)
    (mimetype folder_id : option string) (renew : refresh_outcome)
    (net : create_outcome) :
  (exists pre,
     (pre = [] \/ exists c0, pre = [EvRefresh c0]) /\
     (trace (snd (upload_file f filename mimetype folder_id renew net st))
        = trace st ++ pre \/
      exists c t media fields,
        trace (snd (upload_file f filename mimetype folder_id renew net st))
          = trace st ++ pre ++
              [EvExecute c t
                 (FilesCreate (upload_metadata filename folder_id)
                              (Some media) fields)] /\
        stream_pos (media_fd media) = 0 /\
        stream_data (media_fd media) = stream_data f /\
        remaining (media_fd media) = stream_data f))
  /\
  (forall svc st1 st2,
      _get_service st = (Return svc, st1) ->
      stream_seek f = SeekWorks ->
      before_request svc renew st1 = (Return tt, st2) ->
      exists media,
        trace (snd (upload_file f filename mimetype folder_id renew net st))
          = trace st2 ++
              [EvExecute (svc_creds_value st2 svc) (clock st)
                 (FilesCreate (upload_metadata filename folder_id)
                              (Some media) upload_fields)] /\
        stream_pos (media_fd media) = 0 /\
        remaining (media_fd media) = stream_data f).
Proof.
  split.
  - destruct (upload_file_trace st f filename mimetype folder_id renew net)
      as (pre & Hpre & [Ht|(c & t & _ & Ht)]).
    + exists pre. split; [exact Hpre|]. now left.
    + exists pre. split; [exact Hpre|]. right.
      eexists. eexists. eexists. eexists. split; [exact Ht|].
      simpl. repeat split.
  - intros svc st1 st2 Hs Hk Hb.
    destruct (get_service_frame st Hs) as (_ & Hc & _).
    destruct (before_request_effects st1 svc renew Hb)
      as (_ & _ & _ & _ & Hc2 & _).
    rewrite upload_file_unfold, Hs, Hk, Hb. simpl.
    eexists. split.
    + rewrite Hc2, Hc. reflexivity.
    + simpl. split; reflexivity.
Qed.

(** C9 at a seekable object that was read up to offset 3: the request is
    sent and carries the object at offset 0. *)
Lemma upload_file_rewinds_before_transfer_witness :
  exists media,
    trace (snd (upload_file Samples.content_seekable "report.pdf"%string
                  None None Samples.renew_ok (CreateOk Samples.created_file)
                  Samples.st_authed))
      = trace (with_service (Some (mkService (Some 0))) Samples.st_authed)
          ++ [EvExecute
                (svc_creds_value
                   (with_service (Some (mkService (Some 0)))
                                 Samples.st_authed)
                   (mkService (Some 0)))
                (clock Samples.st_authed)
                (FilesCreate (upload_metadata "report.pdf"%string None)
                             (Some media) upload_fields)] /\
    stream_pos (media_fd media) = 0 /\
    remaining (media_fd media) = stream_data Samples.content_seekable.
Proof.
  exact (proj2 (upload_file_rewinds_before_transfer
                  Samples.st_authed Samples.content_seekable
                  "report.pdf"%string None None Samples.renew_ok
                  (CreateOk Samples.created_file))
               (mkService (Some 0))
               (with_service (Some (mkService (Some 0))) Samples.st_authed)
               (with_service (Some (mkService (Some 0))) Samples.st_authed)
               eq_refl eq_refl eq_refl).
Defined.

(** C10, as amended.  When the content object has no [seek] attribute,
    [upload_file] skips its own rewind and raises nothing, but no transfer
    follows: building the media body fails on the missing [seek], and the
    call gives a failure result without sending anything (the failure is
    the one of [_get_service] when no handle is to be had). *)
Theorem upload_file_without_seek_sends_nothing
    (st : State) (f : Stream) (filename : string)
    (mimetype folder_id : option string) (renew : refresh_outcome)
    (net : create_outcome) :
  stream_seek f = NoSeekAttr ->
  upload_file f filename mimetype folder_id renew net st =
    match _get_service st with
    | (Return svc, st1) =>
        (Return (UploadFailure "object has no attribute 'seek'"), st1)
    | (Raise e, st1) => (Return (UploadFailure (str_exn e)), st1)
    end /\
  trace (snd (upload_file f filename mimetype folder_id renew net st))
    = trace st.
Proof.
  intros Hk. rewrite upload_file_unfold.
  destruct (_get_service st) as [[svc|e] st1] eqn:Hs;
    destruct (get_service_frame st Hs) as [Ht _].
  - rewrite Hk. split; [reflexivity | exact Ht].
  - split; [reflexivity | exact Ht].
Qed.

(** The amended C10 at an object without [seek] that stands at offset 3,
    with a Drive service that would accept the upload. *)
Lemma upload_file_without_seek_sends_nothing_witness :
  upload_file Samples.content_no_seek "report.pdf"%string None None
     Samples.renew_ok (CreateOk Samples.created_file) Samples.st_authed =
    (Return (UploadFailure "object has no attribute 'seek'"),
     with_service (Some (mkService (Some 0))) Samples.st_authed) /\
  trace (snd (upload_file Samples.content_no_seek "report.pdf"%string
                None None Samples.renew_ok (CreateOk Samples.created_file)
                Samples.st_authed))
    = trace Samples.st_authed.
Proof.
  exact (upload_file_without_seek_sends_nothing
           Samples.st_authed Samples.content_no_seek "report.pdf"%string
           None None Samples.renew_ok (CreateOk Samples.created_file)
           eq_refl).
Defined.

(** C10 as stated fails: for a content object without [seek] there is no
    transfer from the current position.  With a valid credential and a
    Drive service ready to accept the file, the call still ends in
    failure and the trace shows no request. *)
Lemma upload_file_without_seek_counterexample :
  stream_seek Samples.content_no_seek = NoSeekAttr /\
  fst (is_authenticated Samples.st_authed) = Return true /\
  fst (upload_file Samples.content_no_seek "report.pdf"%string None None
         Samples.renew_ok (CreateOk Samples.created_file) Samples.st_authed)
    = Return (UploadFailure "object has no attribute 'seek'") /\
  trace (snd (upload_file Samples.content_no_seek "report.pdf"%string
                None None Samples.renew_ok (CreateOk Samples.created_file)
                Samples.st_authed))
    = trace Samples.st_authed.
Proof.
  repeat split; vm_compute; reflexivity.
Qed.

(** ** revoke_authentication *)

(** C8.  [revoke_authentication] never raises, whatever is stored; after
    it the token file is gone and [self.creds] and [self.service] are
    [None]; a second call changes nothing and raises nothing; and from
    then on the manager reports "not authenticated": [is_authenticated]
    and every [load_credentials] answer [False] without changing the
    state, and [_get_service] raises the "Not authenticated" [ValueError],
    whatever credential was held before the call. *)
Theorem revoke_authentication_clears_everything
    {P : Pickle} (st : State) :
  exists st1,
    revoke_authentication st = (Return tt, st1) /\
    token_file st1 = None /\
    creds st1 = None /\
    service st1 = None /\
    revoke_authentication st1 = (Return tt, st1) /\
    fst (is_authenticated st1) = Return false /\
    (forall net, load_credentials net st1 = (Return false, st1)) /\
    (forall nets, run (map CallLoad nets) st1 = st1) /\
    _get_service st1 = (Raise (ValueError not_authenticated_msg), st1).
Proof.
  assert (Hgen : forall st1 : State,
             token_file st1 = None -> creds st1 = None ->
             service st1 = None ->
             fst (is_authenticated st1) = Return false /\
             (forall net, load_credentials net st1 = (Return false, st1)) /\
             (forall nets, run (map CallLoad nets) st1 = st1) /\
             _get_service st1 = (Raise (ValueError not_authenticated_msg), st1)).
  { intros st1 Hf Hc Hs.
    assert (Ha : fst (is_authenticated st1) = Return false).
    { unfold is_authenticated, gets, creds_value. simpl. now rewrite Hc. }
    assert (Hl : forall net, load_credentials net st1 = (Return false, st1)).
    { intros net. now apply load_credentials_nothing_stored. }
    repeat split; auto.
    - intros nets. induction nets as [|net nets IH]; [reflexivity|].
      unfold run in *. simpl. rewrite Hl. simpl. exact IH.
    - now apply get_service_rejects. }
  unfold revoke_authentication, token_path_exists, bind, gets, modify, ret.
  destruct (token_file st) as [b|] eqn:Hf; simpl.
  - eexists. split; [reflexivity|]. simpl.
    repeat split; try reflexivity; apply Hgen; reflexivity.
  - eexists. split; [reflexivity|]. simpl. rewrite Hf.
    repeat split; try reflexivity; apply Hgen; simpl; auto.
Qed.

(** A manager that was authenticated a moment ago is not after
    [revoke_authentication]. *)
Example revoke_after_authorize :
  fst (is_authenticated Samples.st_authed) = Return true /\
  fst (is_authenticated (snd (revoke_authentication Samples.st_authed)))
    = Return false /\
  token_file (snd (revoke_authentication Samples.st_authed)) = None.
Proof. repeat split; vm_compute; reflexivity. Qed.

(** ** Writing and reading back the token file *)

Section StoreFacts.

Context {P : Pickle}.

Lemma save_credentials_writes (st : State) :
  _save_credentials st =
    (Return tt, with_token_file (Some (pickle_dumps (creds_value st))) st).
Proof. reflexivity. Qed.

Lemma save_credentials_interrupted_writes (st : State) (n : nat) :
  _save_credentials_interrupted n st =
    (Return tt,
     with_token_file (Some (firstn n (pickle_dumps (creds_value st)))) st).
Proof. reflexivity. Qed.

(** Reading back a record when no refresh is due. *)
Lemma load_credentials_no_refresh (st : State) (b : list byte)
    (c : Credentials) (net : refresh_outcome) :
  token_file st = Some b -> pickle_loads b = Some (Some c) ->
  expired c (clock st) && truthy (refresh_token c) = false ->
  load_credentials net st =
    (Return (valid c (clock st)),
     with_creds (Some (List.length (heap st)))
                (with_heap (heap st ++ [c]) st)).
Proof.
  intros Hf Hl Hn. py_run. unfold deref, creds_value, deref.
  rewrite Hf. simpl. rewrite Hf, Hl. simpl.
  rewrite deref_fresh. simpl. rewrite Hn. simpl.
  rewrite deref_fresh. reflexivity.
Qed.

End StoreFacts.

(** C6, as amended.  [_save_credentials] writes in place: it opens the
    token file itself for writing, which empties it, and pickles into it.
    Run to the end it leaves the pickle of [self.creds], which unpickles
    to that credential.  Stopped after [n] bytes, short of the whole
    pickle, it leaves those [n] bytes at the configured path, and
    [load_credentials] does not accept them: it raises the unpickling
    error. *)
Theorem save_credentials_writes_in_place
    {P : Pickle} (laws : PickleLaws P) (st : State) (n : nat) :
  n < List.length (pickle_dumps (creds_value st)) ->
  _save_credentials st =
    _save_credentials_interrupted
      (List.length (pickle_dumps (creds_value st))) st /\
  token_file (snd (_save_credentials st)) =
    Some (pickle_dumps (creds_value st)) /\
  pickle_loads (pickle_dumps (creds_value st)) = Some (creds_value st) /\
  token_file (snd (_save_credentials_interrupted n st)) =
    Some (firstn n (pickle_dumps (creds_value st))) /\
  token_file (snd (_save_credentials_interrupted n st)) <>
    Some (pickle_dumps (creds_value st)) /\
  (forall net,
      load_credentials net (snd (_save_credentials_interrupted n st)) =
        (Raise UnpicklingError, snd (_save_credentials_interrupted n st))).
Proof.
  intros Hn.
  rewrite save_credentials_writes, !save_credentials_interrupted_writes.
  simpl. rewrite firstn_all. repeat split.
  - apply (loads_dumps laws).
  - intros Heq. injection Heq as Heq.
    apply (f_equal (@List.length byte)) in Heq.
    rewrite length_firstn in Heq. lia.
  - intros net.
    apply load_credentials_unparsable_raises
      with (b := firstn n (pickle_dumps (creds_value st))).
    + reflexivity.
    + now apply (loads_truncated laws).
Qed.

(** The amended C6 at a save of the first credential that stops as soon
    as the file is open. *)
Lemma save_credentials_writes_in_place_witness :
  _save_credentials (P := TestPickle.test_pickle) Samples.st_authed =
    _save_credentials_interrupted (P := TestPickle.test_pickle)
      (List.length (TestPickle.dumps (creds_value Samples.st_authed)))
      Samples.st_authed /\
  token_file (snd (_save_credentials (P := TestPickle.test_pickle)
                     Samples.st_authed)) =
    Some (TestPickle.dumps (creds_value Samples.st_authed)) /\
  TestPickle.loads (TestPickle.dumps (creds_value Samples.st_authed)) =
    Some (creds_value Samples.st_authed) /\
  token_file (snd (_save_credentials_interrupted
                     (P := TestPickle.test_pickle) 0 Samples.st_authed)) =
    Some (firstn 0 (TestPickle.dumps (creds_value Samples.st_authed))) /\
  token_file (snd (_save_credentials_interrupted
                     (P := TestPickle.test_pickle) 0 Samples.st_authed)) <>
    Some (TestPickle.dumps (creds_value Samples.st_authed)) /\
  (forall net,
      load_credentials (P := TestPickle.test_pickle) net
        (snd (_save_credentials_interrupted
                (P := TestPickle.test_pickle) 0 Samples.st_authed)) =
        (Raise UnpicklingError,
         snd (_save_credentials_interrupted
                (P := TestPickle.test_pickle) 0 Samples.st_authed))).
Proof.
  apply (@save_credentials_writes_in_place TestPickle.test_pickle
           TestPickleFacts.test_pickle_laws Samples.st_authed 0).
  vm_compute. lia.
Defined.

(** C6 as stated fails: a save that stops right after the file was opened
    leaves an empty file at the configured path.  That is neither the
    record that was there before nor the new one, and it is no pickle
    stream. *)
Lemma save_credentials_not_atomic_counterexample :
  token_file (snd (_save_credentials_interrupted
                     (P := TestPickle.test_pickle) 0 Samples.st_authed))
    = Some [] /\
  token_file Samples.st_authed <> Some [] /\
  token_file (snd (_save_credentials (P := TestPickle.test_pickle)
                     Samples.st_authed)) <> Some [] /\
  pickle_loads (Pickle := TestPickle.test_pickle) [] = None.
Proof.
  repeat split; try (vm_compute; reflexivity); vm_compute; discriminate.
Qed.

(** C7, as amended.  For a credential [c] that [load_credentials] will not
    try to refresh (not expired, or without a refresh token) and that
    pickle reproduces, saving [c] and loading gives back [c], with the
    token file as the save left it; saving again what was loaded leaves
    the token file unchanged. *)
Theorem save_then_load_round_trip
    {P : Pickle} (st : State) (c : Credentials) (net : refresh_outcome) :
  creds_value st = Some c ->
  pickle_loads (pickle_dumps (Some c)) = Some (Some c) ->
  expired c (clock st) && truthy (refresh_token c) = false ->
  exists st2,
    load_credentials net (snd (_save_credentials st))
      = (Return (valid c (clock st)), st2) /\
    creds_value st2 = Some c /\
    token_file (snd (_save_credentials st)) = Some (pickle_dumps (Some c)) /\
    token_file st2 = token_file (snd (_save_credentials st)) /\
    token_file (snd (_save_credentials st2)) = token_file st2.
Proof.
  intros Hv Hl Hn.
  rewrite save_credentials_writes. simpl. rewrite Hv.
  set (st1 := with_token_file (Some (pickle_dumps (Some c))) st).
  assert (Hload : load_credentials net st1 =
                    (Return (valid c (clock st1)),
                     with_creds (Some (List.length (heap st1)))
                                (with_heap (heap st1 ++ [c]) st1))).
  { apply load_credentials_no_refresh with (b := pickle_dumps (Some c));
      auto. }
  rewrite Hload. eexists. split; [reflexivity|].
  assert (Hc : creds_value
                 (with_creds (Some (List.length (heap st1)))
                             (with_heap (heap st1 ++ [c]) st1)) = Some c).
  { unfold creds_value, deref. simpl. apply deref_fresh. }
  repeat split; auto.
  unfold creds_value, deref in Hc |- *. simpl in Hc |- *.
  rewrite Hc. reflexivity.
Qed.

(** The amended C7 at the first credential, saved and loaded at time 0,
    well before its expiry at 100. *)
Lemma save_then_load_round_trip_witness :
  exists st2,
    load_credentials (P := TestPickle.test_pickle)
       (RefreshRaises (TransportError "unused"))
       (snd (_save_credentials (P := TestPickle.test_pickle)
               Samples.st_authed))
      = (Return (valid Samples.cred_100 (clock Samples.st_authed)), st2) /\
    creds_value st2 = Some Samples.cred_100 /\
    token_file (snd (_save_credentials (P := TestPickle.test_pickle)
                       Samples.st_authed))
      = Some (TestPickle.dumps (Some Samples.cred_100)) /\
    token_file st2 =
      token_file (snd (_save_credentials (P := TestPickle.test_pickle)
                         Samples.st_authed)) /\
    token_file (snd (_save_credentials (P := TestPickle.test_pickle) st2))
      = token_file st2.
Proof.
  apply (@save_then_load_round_trip TestPickle.test_pickle
           Samples.st_authed Samples.cred_100
           (RefreshRaises (TransportError "unused")));
    vm_compute; reflexivity.
Defined.

(** C7 as stated fails: a complete credential that is past its expiry and
    has a refresh token does not come back from save-then-load.  With the
    token endpoint unreachable nothing comes back; when the refresh
    succeeds the refreshed credential comes back and the token file is
    rewritten with it. *)
Lemma save_then_load_expired_counterexample :
  creds_value Samples.st_expired = Some Samples.cred_100 /\
  creds_value
    (snd (load_credentials (P := TestPickle.test_pickle)
            (RefreshRaises (TransportError "connection reset"))
            (snd (_save_credentials (P := TestPickle.test_pickle)
                    Samples.st_expired))))
    = None /\
  creds_value
    (snd (load_credentials (P := TestPickle.test_pickle)
            (RefreshOk "ya29.second" 500 None)
            (snd (_save_credentials (P := TestPickle.test_pickle)
                    Samples.st_expired))))
    = Some Samples.cred_500 /\
  Samples.cred_500 <> Samples.cred_100.
Proof.
  repeat split; try (vm_compute; reflexivity).
  discriminate.
Qed.

(** ** Which credential a Drive request is sent with *)

Section RequestFacts.

Context {P : Pickle}.

(** [create_folder], step by step. *)
Lemma create_folder_unfold (st : State) (folder_name : string)
    (parent : option string) (renew : refresh_outcome)
    (net : create_outcome) :
  create_folder folder_name parent renew net st =
    match _get_service st with
    | (Raise e, st1) =>
        (Return None,
         with_stdout
           (stdout st1 ++
              [String.append "Failed to create folder: " (str_exn e)]) st1)
    | (Return svc, st1) =>
        match before_request svc renew st1 with
        | (Raise e, st2) =>
            (Return None,
             with_stdout
               (stdout st2 ++
                  [String.append "Failed to create folder: " (str_exn e)])
               st2)
        | (Return _, st2) =>
            match net with
            | CreateOk f =>
                (Return (dict_get "id" f),
                 with_trace
                   (trace st2 ++
                      [EvExecute (svc_creds_value st2 svc) (clock st2)
                         (FilesCreate (folder_metadata folder_name parent)
                                      None "id")]) st2)
            | CreateRaises e =>
                (Return None,
                 with_stdout
                   (stdout st2 ++
                      [String.append "Failed to create folder: "
                                     (str_exn e)])
                   (with_trace
                      (trace st2 ++
                         [EvExecute (svc_creds_value st2 svc) (clock st2)
                            (FilesCreate
                               (folder_metadata folder_name parent)
                               None "id")]) st2))
            end
        end
    end.
Proof.
  unfold create_folder, try_except, bind.
  destruct (_get_service st) as [[svc|e] st1]; [|reflexivity].
  unfold execute_create, bind.
  destruct (before_request svc renew st1) as [[[]|e] st2]; [|reflexivity].
  unfold gets, emit, modify, ret, raise, print. simpl.
  destruct net; reflexivity.
Qed.

(** [list_files], step by step. *)
Lemma list_files_unfold (st : State) (page_size : Z)
    (folder_id : option string) (renew : refresh_outcome)
    (net : list_outcome) :
  list_files page_size folder_id renew net st =
    match _get_service st with
    | (Raise e, st1) =>
        (Return [],
         with_stdout
           (stdout st1 ++
              [String.append "Failed to list files: " (str_exn e)]) st1)
    | (Return svc, st1) =>
        match before_request svc renew st1 with
        | (Raise e, st2) =>
            (Return [],
             with_stdout
               (stdout st2 ++
                  [String.append "Failed to list files: " (str_exn e)]) st2)
        | (Return _, st2) =>
            match net with
            | ListOk fs =>
                (Return (match fs with
                         | Some l => l
                         | None => []
                         end),
                 with_trace
                   (trace st2 ++
                      [EvExecute (svc_creds_value st2 svc) (clock st2)
                         (list_request page_size folder_id)]) st2)
            | ListRaises e =>
                (Return [],
                 with_stdout
                   (stdout st2 ++
                      [String.append "Failed to list files: " (str_exn e)])
                   (with_trace
                      (trace st2 ++
                         [EvExecute (svc_creds_value st2 svc) (clock st2)
                            (list_request page_size folder_id)]) st2))
            end
        end
    end.
Proof.
  unfold list_files, try_except, bind.
  destruct (_get_service st) as [[svc|e] st1]; [|reflexivity].
  unfold execute_list, bind.
  destruct (before_request svc renew st1) as [[[]|e] st2]; [|reflexivity].
  unfold gets, emit, modify, ret, raise, print. simpl.
  destruct net; reflexivity.
Qed.

(** Without a handle and without a valid credential, each operation gives
    its failure value and sends nothing. *)
Lemma upload_file_not_authenticated (st : State) (f : Stream)
    (filename : string) (mimetype folder_id : option string)
    (renew : refresh_outcome) (net : create_outcome) :
  service st = None -> fst (is_authenticated st) = Return false ->
  upload_file f filename mimetype folder_id renew net st =
    (Return (UploadFailure not_authenticated_msg), st).
Proof.
  intros Hs Ha.
  rewrite upload_file_unfold. now rewrite (get_service_rejects Hs Ha).
Qed.

Lemma create_folder_not_authenticated (st : State) (folder_name : string)
    (parent : option string) (renew : refresh_outcome)
    (net : create_outcome) :
  service st = None -> fst (is_authenticated st) = Return false ->
  create_folder folder_name parent renew net st =
    (Return None,
     with_stdout
       (stdout st ++
          [String.append "Failed to create folder: " not_authenticated_msg])
       st).
Proof.
  intros Hs Ha.
  rewrite create_folder_unfold. now rewrite (get_service_rejects Hs Ha).
Qed.

Lemma list_files_not_authenticated (st : State) (page_size : Z)
    (folder_id : option string) (renew : refresh_outcome)
    (net : list_outcome) :
  service st = None -> fst (is_authenticated st) = Return false ->
  list_files page_size folder_id renew net st =
    (Return [],
     with_stdout
       (stdout st ++
          [String.append "Failed to list files: " not_authenticated_msg])
       st).
Proof.
  intros Hs Ha.
  rewrite list_files_unfold. now rewrite (get_service_rejects Hs Ha).
Qed.

End RequestFacts.

(** * Further properties of the manager *)

(** ** A code exchange that succeeds *)

Section ExchangeFacts.

Context {P : Pickle}.

Lemma authenticate_from_code_ok (st : State) (code redirect_uri : string)
    (state : option string) (c : Credentials) :
  secrets_file st = true ->
  authenticate_from_code code redirect_uri state (FetchOk c) st =
    (Return true,
     with_token_file (Some (pickle_dumps (Some c)))
       (with_creds (Some (List.length (heap st)))
          (with_heap (heap st ++ [c])
             (with_trace (trace st ++ [EvFetchToken code]) st)))).
Proof.
  intros Hs. py_run. rewrite Hs. simpl.
  unfold creds_value, deref. simpl. rewrite deref_fresh. reflexivity.
Qed.

End ExchangeFacts.

(** X1.  When the client-secret file exists and the token endpoint answers
    with a credential, [authenticate_from_code] returns [True], whether or
    not that credential is valid; [self.creds] is a new object holding it,
    the token file holds its pickle, and the objects made earlier and the
    cached service handle are left as they were. *)
Theorem authenticate_from_code_success
    {P : Pickle} (st : State) (code redirect_uri : string)
    (state : option string) (c : Credentials) :
  secrets_file st = true ->
  exists st',
    authenticate_from_code code redirect_uri state (FetchOk c) st
      = (Return true, st') /\
    creds_value st' = Some c /\
    token_file st' = Some (pickle_dumps (Some c)) /\
    service st' = service st /\
    (forall l c0, deref st l = Some c0 -> deref st' l = Some c0) /\
    trace st' = trace st ++ [EvFetchToken code] /\
    stdout st' = stdout st /\
    fst (is_authenticated st') = Return (valid c (clock st)).
Proof.
  intros Hs.
  rewrite (authenticate_from_code_ok st code redirect_uri state c Hs).
  eexists. split; [reflexivity|].
  assert (Hv : creds_value
                 (with_token_file (Some (pickle_dumps (Some c)))
                    (with_creds (Some (List.length (heap st)))
                       (with_heap (heap st ++ [c])
                          (with_trace (trace st ++ [EvFetchToken code]) st))))
               = Some c).
  { unfold creds_value, deref. simpl. apply deref_fresh. }
  repeat split; auto.
  - intros l c0 Hd. unfold deref. simpl. now apply deref_alloc.
  - unfold is_authenticated, gets. simpl. now rewrite Hv.
Qed.

(** X1 at a new manager and a credential that is already expired when it
    arrives: the answer is still [True]. *)
Lemma authenticate_from_code_success_witness :
  exists st',
    authenticate_from_code (P := TestPickle.test_pickle)
       "abc123" "https://app/callback" None (FetchOk Samples.cred_100)
       (init None true 200)
      = (Return true, st') /\
    creds_value st' = Some Samples.cred_100 /\
    token_file st' = Some (TestPickle.dumps (Some Samples.cred_100)) /\
    service st' = service (init None true 200) /\
    (forall l c0, deref (init None true 200) l = Some c0 ->
                  deref st' l = Some c0) /\
    trace st' = trace (init None true 200) ++ [EvFetchToken "abc123"] /\
    stdout st' = stdout (init None true 200) /\
    fst (is_authenticated st') = Return (valid Samples.cred_100 200).
Proof.
  exact (@authenticate_from_code_success TestPickle.test_pickle
           (init None true 200) "abc123" "https://app/callback" None
           Samples.cred_100 eq_refl).
Defined.

(** X2.  A credential obtained by [authenticate_from_code] survives a
    restart: a new manager started on the token file that the exchange
    left, at a time when no refresh is due, loads that same credential
    without any network call and leaves the file as it is. *)
Theorem authorized_credential_survives_restart
    {P : Pickle} (st : State) (code redirect_uri : string)
    (state : option string) (c : Credentials) (net : refresh_outcome)
    (sf : bool) (now : Z) :
  secrets_file st = true ->
  pickle_loads (pickle_dumps (Some c)) = Some (Some c) ->
  expired c now && truthy (refresh_token c) = false ->
  exists st2,
    load_credentials net
      (init (token_file
               (snd (authenticate_from_code code redirect_uri state
                       (FetchOk c) st))) sf now)
      = (Return (valid c now), st2) /\
    creds_value st2 = Some c /\
    trace st2 = [] /\
    token_file st2 = Some (pickle_dumps (Some c)).
Proof.
  intros Hs Hl Hn.
  rewrite (authenticate_from_code_ok st code redirect_uri state c Hs).
  simpl.
  set (st0 := init (Some (pickle_dumps (Some c))) sf now).
  assert (Hload : load_credentials net st0 =
                    (Return (valid c (clock st0)),
                     with_creds (Some (List.length (heap st0)))
                                (with_heap (heap st0 ++ [c]) st0))).
  { apply load_credentials_no_refresh with (b := pickle_dumps (Some c));
      auto. }
  rewrite Hload. eexists. split; [reflexivity|].
  repeat split.
Qed.

(** X2 at the first credential, authorized at time 0 and loaded by a new
    manager at time 50. *)
Lemma authorized_credential_survives_restart_witness :
  exists st2,
    load_credentials (P := TestPickle.test_pickle)
      (RefreshRaises (TransportError "unused"))
      (init (token_file
               (snd (authenticate_from_code (P := TestPickle.test_pickle)
                       "abc123" "https://app/callback" None
                       (FetchOk Samples.cred_100) Samples.st_new)))
            false 50)
      = (Return (valid Samples.cred_100 50), st2) /\
    creds_value st2 = Some Samples.cred_100 /\
    trace st2 = [] /\
    token_file st2 = Some (TestPickle.dumps (Some Samples.cred_100)).
Proof.
  apply (@authorized_credential_survives_restart TestPickle.test_pickle
           Samples.st_new "abc123" "https://app/callback" None
           Samples.cred_100 (RefreshRaises (TransportError "unused"))
           false 50);
    vm_compute; reflexivity.
Defined.

(** ** A refresh that succeeds *)

Section RefreshOkFacts.

Context {P : Pickle}.

Lemma nth_error_list_set_same {A : Type} (h : list A) (l : nat) (x c : A) :
  nth_error h l = Some c -> nth_error (list_set h l x) l = Some x.
Proof.
  revert l; induction h as [|a h IH]; intros [|l] H; simpl in *;
    try discriminate; auto.
Qed.

Lemma nth_error_list_set_other {A : Type} (h : list A) (l l' : nat) (x : A) :
  l' <> l -> nth_error (list_set h l x) l' = nth_error h l'.
Proof.
  revert l l'; induction h as [|a h IH]; intros [|l] [|l'] H; simpl;
    try reflexivity; try congruence.
  apply IH. congruence.
Qed.

(** The credential after a refresh answered with [tok], [exp], [rt]. *)
Lemma refreshed_valid (c : Credentials) (tok : string) (exp : Z)
    (rt : option string) (now : Z) :
  valid (mkCredentials (Some tok)
           (match rt with Some r => Some r | None => refresh_token c end)
           (Some exp) (scopes c)) now
    = negb (exp <=? now)%Z.
Proof. reflexivity. Qed.

Lemma load_credentials_refresh_ok_loaded
    (st : State) (b : list byte) (c : Credentials)
    (tok : string) (exp : Z) (rt : option string) :
  token_file st = Some b -> pickle_loads b = Some (Some c) ->
  expired c (clock st) = true -> truthy (refresh_token c) = true ->
  load_credentials (RefreshOk tok exp rt) st =
    (Return (negb (exp <=? clock st)%Z),
     with_token_file
       (Some (pickle_dumps
                (Some (mkCredentials (Some tok)
                         (match rt with
                          | Some r => Some r
                          | None => refresh_token c
                          end) (Some exp) (scopes c)))))
       (with_heap
          (list_set (heap st ++ [c]) (List.length (heap st))
             (mkCredentials (Some tok)
                (match rt with
                 | Some r => Some r
                 | None => refresh_token c
                 end) (Some exp) (scopes c)))
          (with_trace (trace st ++ [EvRefresh c])
             (with_creds (Some (List.length (heap st)))
                (with_heap (heap st ++ [c]) st))))).
Proof.
  intros Hf Hl He Hr. py_run. unfold deref, creds_value, deref.
  rewrite Hf. simpl. rewrite Hf, Hl. simpl.
  rewrite deref_fresh. simpl. rewrite He, Hr. simpl.
  rewrite (nth_error_list_set_same _ _ _ (deref_fresh (heap st) c)).
  reflexivity.
Qed.

Lemma load_credentials_refresh_ok_in_memory
    (st : State) (l : loc) (c : Credentials)
    (tok : string) (exp : Z) (rt : option string) :
  token_file st = None -> creds st = Some l -> deref st l = Some c ->
  expired c (clock st) = true -> truthy (refresh_token c) = true ->
  load_credentials (RefreshOk tok exp rt) st =
    (Return (negb (exp <=? clock st)%Z),
     with_token_file
       (Some (pickle_dumps
                (Some (mkCredentials (Some tok)
                         (match rt with
                          | Some r => Some r
                          | None => refresh_token c
                          end) (Some exp) (scopes c)))))
       (with_heap
          (list_set (heap st) l
             (mkCredentials (Some tok)
                (match rt with
                 | Some r => Some r
                 | None => refresh_token c
                 end) (Some exp) (scopes c)))
          (with_trace (trace st ++ [EvRefresh c]) st))).
Proof.
  intros Hf Hc Hd He Hr. py_run. unfold deref, creds_value, deref in *.
  rewrite Hf. simpl. rewrite Hc. simpl. rewrite Hd. simpl.
  rewrite He, Hr. simpl. rewrite Hc. simpl.
  rewrite (nth_error_list_set_same _ _ _ Hd).
  reflexivity.
Qed.

End RefreshOkFacts.

(** X3.  When the token file holds an expired credential with a refresh
    token and the refresh succeeds, [load_credentials] ends with a new
    credentials object in [self.creds] that carries the new access token
    and expiry, the old scopes, and the old refresh token unless a new one
    was issued; the token file holds the pickle of that object; exactly
    one refresh was sent; the answer is whether the new expiry lies in the
    future.  Objects that existed before, such as the one a cached service
    handle uses, are not refreshed. *)
Theorem load_credentials_refreshes_from_file
    {P : Pickle} (st : State) (b : list byte) (c : Credentials)
    (tok : string) (exp : Z) (rt : option string) :
  token_file st = Some b -> pickle_loads b = Some (Some c) ->
  expired c (clock st) = true -> truthy (refresh_token c) = true ->
  exists st' c',
    load_credentials (RefreshOk tok exp rt) st
      = (Return (negb (exp <=? clock st)%Z), st') /\
    creds_value st' = Some c' /\
    token c' = Some tok /\ expiry c' = Some exp /\
    scopes c' = scopes c /\
    refresh_token c' = match rt with
                       | Some r => Some r
                       | None => refresh_token c
                       end /\
    token_file st' = Some (pickle_dumps (Some c')) /\
    trace st' = trace st ++ [EvRefresh c] /\
    service st' = service st /\
    (forall l c0, deref st l = Some c0 -> deref st' l = Some c0).
Proof.
  intros Hf Hl He Hr.
  rewrite (load_credentials_refresh_ok_loaded st tok exp rt Hf Hl He Hr).
  eexists. eexists. split; [reflexivity|].
  split.
  - unfold creds_value, deref. simpl.
    apply (nth_error_list_set_same _ _ _ (deref_fresh (heap st) c)).
  - simpl. repeat split.
    intros l c0 Hd. unfold deref in *. simpl.
    assert (Hlt : l < List.length (heap st)).
    { apply nth_error_Some. congruence. }
    rewrite nth_error_list_set_other by lia.
    now apply deref_alloc.
Qed.

(** X3 at the manager whose stored credential expired at 100, asked at
    time 200, with a token endpoint that issues no new refresh token: the
    cached handle's object is still the expired one. *)
Lemma load_credentials_refreshes_from_file_witness :
  exists st' c',
    load_credentials (P := TestPickle.test_pickle)
       (RefreshOk "ya29.second" 500 None) Samples.st_handle_expired
      = (Return (negb (500 <=? clock Samples.st_handle_expired)%Z), st') /\
    creds_value st' = Some c' /\
    token c' = Some "ya29.second"%string /\ expiry c' = Some 500%Z /\
    scopes c' = scopes Samples.cred_100 /\
    refresh_token c' = refresh_token Samples.cred_100 /\
    token_file st' = Some (TestPickle.dumps (Some c')) /\
    trace st' =
      trace Samples.st_handle_expired ++ [EvRefresh Samples.cred_100] /\
    service st' = service Samples.st_handle_expired /\
    (forall l c0, deref Samples.st_handle_expired l = Some c0 ->
                  deref st' l = Some c0).
Proof.
  apply (@load_credentials_refreshes_from_file TestPickle.test_pickle
           Samples.st_handle_expired
           (TestPickle.dumps (Some Samples.cred_100)) Samples.cred_100
           "ya29.second" 500 None);
    vm_compute; reflexivity.
Defined.

(** X4.  When there is no token file and the credential in memory is
    expired with a refresh token, a successful refresh updates that very
    object in place, so a cached service handle built on it sees the new
    access token; every other object is as before; and the token file is
    created with the pickle of the refreshed credential. *)
Theorem load_credentials_refreshes_in_place
    {P : Pickle} (st : State) (l : loc) (c : Credentials)
    (tok : string) (exp : Z) (rt : option string) :
  token_file st = None -> creds st = Some l -> deref st l = Some c ->
  expired c (clock st) = true -> truthy (refresh_token c) = true ->
  exists st' c',
    load_credentials (RefreshOk tok exp rt) st
      = (Return (negb (exp <=? clock st)%Z), st') /\
    creds st' = Some l /\
    deref st' l = Some c' /\
    token c' = Some tok /\ expiry c' = Some exp /\
    (forall l', l' <> l -> deref st' l' = deref st l') /\
    token_file st' = Some (pickle_dumps (Some c')) /\
    service st' = service st /\
    (forall svc, service st = Some svc -> svc_credentials svc = Some l ->
                 svc_creds_value st' svc = Some c').
Proof.
  intros Hf Hc Hd He Hr.
  rewrite (load_credentials_refresh_ok_in_memory st tok exp rt
             Hf Hc Hd He Hr).
  eexists. eexists. split; [reflexivity|].
  assert (Hnew : forall x, nth_error (list_set (heap st) l x) l = Some x).
  { intros x. apply (nth_error_list_set_same _ _ _ Hd). }
  simpl. repeat split; auto.
  - unfold deref. simpl. apply Hnew.
  - intros l' Hne. unfold deref. simpl.
    now apply nth_error_list_set_other.
  - intros svc _ Hsvc. unfold svc_creds_value, deref. rewrite Hsvc.
    simpl. apply Hnew.
Qed.

(** X4 at a manager whose token file was removed while it held the expired
    credential and a handle built on it. *)
Lemma load_credentials_refreshes_in_place_witness :
  exists st' c',
    load_credentials (P := TestPickle.test_pickle)
       (RefreshOk "ya29.second" 500 None)
       MoreSamples.st_in_memory_expired
      = (Return (negb (500 <=? clock MoreSamples.st_in_memory_expired)%Z),
         st') /\
    creds st' = Some 0 /\
    deref st' 0 = Some c' /\
    token c' = Some "ya29.second"%string /\ expiry c' = Some 500%Z /\
    (forall l', l' <> 0 ->
                deref st' l' = deref MoreSamples.st_in_memory_expired l') /\
    token_file st' = Some (TestPickle.dumps (Some c')) /\
    service st' = service MoreSamples.st_in_memory_expired /\
    (forall svc,
        service MoreSamples.st_in_memory_expired = Some svc ->
        svc_credentials svc = Some 0 ->
        svc_creds_value st' svc = Some c').
Proof.
  apply (@load_credentials_refreshes_in_place TestPickle.test_pickle
           MoreSamples.st_in_memory_expired 0 Samples.cred_100
           "ya29.second" 500 None);
    vm_compute; reflexivity.
Defined.

(** ** What load_credentials leaves alone *)

Section LoadCases.

Context {P : Pickle}.

(** A token file that holds the pickle of [None]. *)
Lemma load_credentials_pickled_none (st : State) (b : list byte)
    (net : refresh_outcome) :
  token_file st = Some b -> pickle_loads b = Some None ->
  load_credentials net st = (Return false, with_creds None st).
Proof.
  intros Hf Hl. py_run. unfold creds_value.
  rewrite Hf. simpl. rewrite Hf, Hl. reflexivity.
Qed.

(** No token file, a credential in memory, no refresh due. *)
Lemma load_credentials_in_memory_no_refresh (st : State) (l : loc)
    (c : Credentials) (net : refresh_outcome) :
  token_file st = None -> creds st = Some l -> deref st l = Some c ->
  expired c (clock st) && truthy (refresh_token c) = false ->
  load_credentials net st = (Return (valid c (clock st)), st).
Proof.
  intros Hf Hc Hd Hn. py_run. unfold creds_value, deref in *.
  rewrite Hf. simpl. rewrite Hc. simpl. rewrite Hd. simpl.
  rewrite Hn. simpl. rewrite Hc, Hd. reflexivity.
Qed.

(** No token file and a reference in [self.creds] to no object. *)
Lemma load_credentials_in_memory_dangling (st : State) (l : loc)
    (net : refresh_outcome) :
  token_file st = None -> creds st = Some l -> deref st l = None ->
  load_credentials net st = (Return false, st).
Proof.
  intros Hf Hc Hd. py_run. unfold creds_value, deref in *.
  rewrite Hf. simpl. rewrite Hc. simpl. rewrite Hd. simpl.
  rewrite Hc, Hd. reflexivity.
Qed.


End LoadCases.

(** X5.  Whatever the state and the token endpoint's answer,
    [load_credentials] leaves the service handle and the clock alone and
    sends no Drive request; it makes at most one network call, a refresh,
    and only for a credential that is expired and has a non-empty refresh
    token. *)
Theorem load_credentials_network_discipline
    {P : Pickle} (st : State) (net : refresh_outcome) :
  service (snd (load_credentials net st)) = service st /\
  clock (snd (load_credentials net st)) = clock st /\
  secrets_file (snd (load_credentials net st)) = secrets_file st /\
  (trace (snd (load_credentials net st)) = trace st \/
   exists c,
     trace (snd (load_credentials net st)) = trace st ++ [EvRefresh c] /\
     expired c (clock st) = true /\
     truthy (refresh_token c) = true).
Proof.
  destruct (token_file st) as [b|] eqn:Hf.
  - destruct (pickle_loads b) as [[c|]|] eqn:Hl.
    + destruct (expired c (clock st) && truthy (refresh_token c)) eqn:Hn.
      * apply andb_true_iff in Hn as Hn'. destruct Hn' as [He Hr].
        destruct net as [tok exp rt|e].
        -- rewrite (load_credentials_refresh_ok_loaded st tok exp rt
                      Hf Hl He Hr).
           simpl. repeat split. right. eauto.
        -- rewrite (load_credentials_refresh_raises_loaded st e Hf Hl He Hr).
           simpl. repeat split. right. eauto.
      * rewrite (load_credentials_no_refresh st net Hf Hl Hn).
        simpl. repeat split. now left.
    + rewrite (load_credentials_pickled_none st net Hf Hl).
      simpl. repeat split. now left.
    + rewrite (load_credentials_unparsable_raises st net Hf Hl).
      simpl. repeat split. now left.
  - destruct (creds st) as [l|] eqn:Hc.
    + destruct (deref st l) as [c|] eqn:Hd.
      * destruct (expired c (clock st) && truthy (refresh_token c)) eqn:Hn.
        -- apply andb_true_iff in Hn as Hn'. destruct Hn' as [He Hr].
           destruct net as [tok exp rt|e].
           ++ rewrite (load_credentials_refresh_ok_in_memory st tok exp rt
                         Hf Hc Hd He Hr).
              simpl. repeat split. right. eauto.
           ++ rewrite (load_credentials_refresh_raises_in_memory st e
                         Hf Hc Hd He Hr).
              simpl. repeat split. right. eauto.
        -- rewrite (load_credentials_in_memory_no_refresh st net
                      Hf Hc Hd Hn).
           simpl. repeat split. now left.
      * rewrite (load_credentials_in_memory_dangling st net Hf Hc Hd).
        simpl. repeat split. now left.
    + rewrite (load_credentials_nothing_stored st net Hf Hc).
      simpl. repeat split. now left.
Qed.

(** X6.  An expired credential whose refresh token is missing or empty is
    not refreshed: [load_credentials] makes no network call, prints
    nothing, leaves the token file alone, answers [False], and, unlike
    after a failed refresh, keeps the expired credential in
    [self.creds]. *)
Theorem load_credentials_keeps_unrefreshable_credential
    {P : Pickle} (st : State) (c : Credentials) (net : refresh_outcome) :
  (token_file st = None /\ creds_value st = Some c) \/
  (exists b, token_file st = Some b /\ pickle_loads b = Some (Some c)) ->
  expired c (clock st) = true ->
  truthy (refresh_token c) = false ->
  exists st',
    load_credentials net st = (Return false, st') /\
    creds_value st' = Some c /\
    trace st' = trace st /\
    token_file st' = token_file st /\
    stdout st' = stdout st.
Proof.
  intros Hcase He Hr.
  assert (Hn : expired c (clock st) && truthy (refresh_token c) = false)
    by (rewrite Hr; apply andb_false_r).
  assert (Hv : valid c (clock st) = false).
  { unfold valid. rewrite He. now destruct (token c). }
  destruct Hcase as [[Hf Hc]|[b [Hf Hl]]].
  - unfold creds_value in Hc.
    destruct (creds st) as [l|] eqn:Hcr; [|discriminate].
    rewrite (load_credentials_in_memory_no_refresh st net Hf Hcr Hc Hn).
    rewrite Hv. eexists. split; [reflexivity|].
    unfold creds_value. rewrite Hcr. auto.
  - rewrite (load_credentials_no_refresh st net Hf Hl Hn).
    rewrite Hv. eexists. split; [reflexivity|].
    split; [|simpl; auto].
    unfold creds_value, deref. simpl. apply deref_fresh.
Qed.

(** X6 at a manager that holds, at time 200, a credential expired at 100
    whose refresh token is the empty string. *)
Lemma load_credentials_keeps_unrefreshable_credential_witness :
  exists st',
    load_credentials (P := TestPickle.test_pickle)
       (RefreshOk "ya29.second" 500 None) MoreSamples.st_no_refresh
      = (Return false, st') /\
    creds_value st' = Some MoreSamples.cred_no_refresh /\
    trace st' = trace MoreSamples.st_no_refresh /\
    token_file st' = token_file MoreSamples.st_no_refresh /\
    stdout st' = stdout MoreSamples.st_no_refresh.
Proof.
  apply (@load_credentials_keeps_unrefreshable_credential
           TestPickle.test_pickle MoreSamples.st_no_refresh
           MoreSamples.cred_no_refresh (RefreshOk "ya29.second" 500 None)).
  - left. split; reflexivity.
  - reflexivity.
  - reflexivity.
Defined.

(** ** The Drive operations: no exception, no change to the manager's credential *)

Section OperationFrame.

Lemma get_service_untouched (st st1 : State) (r : outcome Service) :
  _get_service st = (r, st1) -> credentials_untouched st st1.
Proof.
  unfold credentials_untouched. py_run.
  destruct (service st) as [svc|]; simpl.
  - intros H; injection H as <- <-. repeat split.
  - destruct (creds_value st) as [c|]; simpl.
    + destruct (valid c (clock st)); simpl;
        intros H; injection H as <- <-; repeat split.
    + intros H; injection H as <- <-. repeat split.
Qed.

(** The handle that [_get_service] returns is the cached one afterwards. *)
Lemma get_service_handle (st st1 : State) (svc : Service) :
  _get_service st = (Return svc, st1) -> service st1 = Some svc.
Proof.
  py_run. destruct (service st) as [svc0|] eqn:Hs; simpl.
  - intros H; injection H as <- <-. exact Hs.
  - destruct (creds_value st) as [c|]; simpl.
    + destruct (valid c (clock st)); simpl; intros H;
        [injection H as <- <-; reflexivity | discriminate].
    + discriminate.
Qed.


Lemma untouched_frame (renew : refresh_outcome) (st st' : State) :
  credentials_untouched st st' -> operation_frame renew st st'.
Proof.
  unfold credentials_untouched, operation_frame, client_refresh.
  intros (Hc & Hh & Hf & Hsf & Hck). repeat split; auto.
Qed.

Lemma operation_frame_same (renew : refresh_outcome) (st st2 st' : State) :
  operation_frame renew st st2 -> same_manager st2 st' ->
  operation_frame renew st st'.
Proof.
  unfold operation_frame, client_refresh, same_manager.
  intros (Hc & Hf & Hsf & Hck & Hh) (Hc' & Hs' & Hh' & Hf' & Hsf' & Hck').
  repeat split; try congruence.
  destruct Hh as [Hh|(svc & l & c & tok & exp & rt & H1 & H2 & H3 & H4 & H5
                        & H6)].
  - left. congruence.
  - right. exists svc, l, c, tok, exp, rt. repeat split; congruence.
Qed.

(** The client's preparation, seen from the state before
    [_get_service]. *)
Lemma preparation_frame (st st1 st2 : State) (svc : Service)
    (renew : refresh_outcome) (r : outcome unit) :
  _get_service st = (Return svc, st1) ->
  before_request svc renew st1 = (r, st2) ->
  operation_frame renew st st2.
Proof.
  intros Hs Hb.
  destruct (get_service_untouched st Hs) as (Hc & Hh & Hf & Hsf & Hck).
  pose proof (get_service_handle st Hs) as Hsv.
  destruct (before_request_effects st1 svc renew Hb)
    as (Hc2 & Hs2 & Hf2 & Hsf2 & Hck2 & _ & Hheap).
  unfold operation_frame. repeat split; try congruence.
  unfold client_refresh.
  destruct Hheap
    as [[_ Hh2]|(l & c & Hl & Hd & Hv & _
                 & [Hh2|(tok & exp & rt & Hr & Hh2)])].
  - left; congruence.
  - left; congruence.
  - right. exists svc, l, c, tok, exp, rt.
    unfold deref in *. rewrite Hh, Hck in *.
    repeat split; congruence.
Qed.

Lemma upload_file_returns (st : State) (f : Stream) (filename : string)
    (mimetype folder_id : option string) (renew : refresh_outcome)
    (net : create_outcome) :
  exists r st',
    upload_file f filename mimetype folder_id renew net st
      = (Return r, st') /\
    operation_frame renew st st'.
Proof.
  rewrite upload_file_unfold.
  destruct (_get_service st) as [[svc|e] st1] eqn:Hs;
    pose proof (untouched_frame renew (get_service_untouched st Hs)) as Hu.
  - destruct (stream_seek f) as [| e |].
    + eexists; eexists; split; [reflexivity | exact Hu].
    + eexists; eexists; split; [reflexivity | exact Hu].
    + destruct (before_request svc renew st1) as [[[]|e] st2] eqn:Hb;
        pose proof (preparation_frame st renew Hs Hb) as Hfr;
        eexists; eexists; (split; [reflexivity|]);
        apply (operation_frame_same Hfr); unfold same_manager;
        repeat split.
  - eexists; eexists; split; [reflexivity | exact Hu].
Qed.

Lemma create_folder_returns (st : State) (folder_name : string)
    (parent : option string) (renew : refresh_outcome)
    (net : create_outcome) :
  exists r st',
    create_folder folder_name parent renew net st = (Return r, st') /\
    operation_frame renew st st'.
Proof.
  rewrite create_folder_unfold.
  destruct (_get_service st) as [[svc|e] st1] eqn:Hs;
    pose proof (untouched_frame renew (get_service_untouched st Hs)) as Hu.
  - destruct (before_request svc renew st1) as [[[]|e] st2] eqn:Hb;
      pose proof (preparation_frame st renew Hs Hb) as Hfr;
      [destruct net|];
      eexists; eexists; (split; [reflexivity|]);
      apply (operation_frame_same Hfr); unfold same_manager;
      repeat split.
  - eexists; eexists; (split; [reflexivity|]).
    apply (operation_frame_same Hu); unfold same_manager; repeat split.
Qed.

Lemma list_files_returns (st : State) (page_size : Z)
    (folder_id : option string) (renew : refresh_outcome)
    (net : list_outcome) :
  exists r st',
    list_files page_size folder_id renew net st = (Return r, st') /\
    operation_frame renew st st'.
Proof.
  rewrite list_files_unfold.
  destruct (_get_service st) as [[svc|e] st1] eqn:Hs;
    pose proof (untouched_frame renew (get_service_untouched st Hs)) as Hu.
  - destruct (before_request svc renew st1) as [[[]|e] st2] eqn:Hb;
      pose proof (preparation_frame st renew Hs Hb) as Hfr;
      [destruct net|];
      eexists; eexists; (split; [reflexivity|]);
      apply (operation_frame_same Hfr); unfold same_manager;
      repeat split.
  - eexists; eexists; (split; [reflexivity|]).
    apply (operation_frame_same Hu); unfold same_manager; repeat split.
Qed.

(** The client's refresh of a credential that is not valid, case by
    case. *)
Lemma before_request_renews (st : State) (svc : Service) (l : loc)
    (c : Credentials) (r : string) (tok : string) (exp : Z)
    (rt : option string) :
  svc_credentials svc = Some l -> deref st l = Some c ->
  valid c (clock st) = false -> refresh_token c = Some r ->
  before_request svc (RefreshOk tok exp rt) st =
    (Return tt,
     with_heap (list_set (heap st) l (renewed c tok exp rt))
       (with_trace (trace st ++ [EvRefresh c]) st)).
Proof.
  intros Hl Hd Hv Hr.
  unfold before_request, refresh, bind, gets, ret, raise, emit, modify,
    renewed.
  rewrite Hl. simpl. rewrite Hd, Hv, Hr. reflexivity.
Qed.

Lemma before_request_refresh_raises (st : State) (svc : Service) (l : loc)
    (c : Credentials) (r : string) (e : exn) :
  svc_credentials svc = Some l -> deref st l = Some c ->
  valid c (clock st) = false -> refresh_token c = Some r ->
  before_request svc (RefreshRaises e) st =
    (Raise e, with_trace (trace st ++ [EvRefresh c]) st).
Proof.
  intros Hl Hd Hv Hr.
  unfold before_request, refresh, bind, gets, ret, raise, emit, modify.
  rewrite Hl. simpl. rewrite Hd, Hv, Hr. reflexivity.
Qed.

Lemma before_request_no_refresh_token (st : State) (svc : Service)
    (l : loc) (c : Credentials) (renew : refresh_outcome) :
  svc_credentials svc = Some l -> deref st l = Some c ->
  valid c (clock st) = false -> refresh_token c = None ->
  before_request svc renew st =
    (Raise (RefreshError no_refresh_fields_msg), st).
Proof.
  intros Hl Hd Hv Hr.
  unfold before_request, refresh, bind, gets, ret, raise, emit, modify.
  rewrite Hl. simpl. rewrite Hd, Hv, Hr. reflexivity.
Qed.

End OperationFrame.

(** X7.  [upload_file], [create_folder] and [list_files] never raise,
    whatever the state, the arguments and the answers of the token
    endpoint and of the Drive service; and none of them changes the
    credential in memory, the token file or the clock.  Of the credentials
    objects an operation changes at most one: the object its handle was
    built on, when that credential is not valid and the Drive client
    refreshes it in place before it sends.  Such a refresh is not written
    to the token file. *)
Theorem drive_operations_never_raise (st : State) :
  (forall f filename mimetype folder_id renew net,
      exists r st',
        upload_file f filename mimetype folder_id renew net st
          = (Return r, st') /\
        operation_frame renew st st') /\
  (forall folder_name parent renew net,
      exists r st',
        create_folder folder_name parent renew net st = (Return r, st') /\
        operation_frame renew st st') /\
  (forall page_size folder_id renew net,
      exists r st',
        list_files page_size folder_id renew net st = (Return r, st') /\
        operation_frame renew st st') /\
  (forall svc l c r tok exp rt folder_name parent net,
      service st = Some svc -> svc_credentials svc = Some l ->
      deref st l = Some c -> valid c (clock st) = false ->
      refresh_token c = Some r ->
      heap (snd (create_folder folder_name parent (RefreshOk tok exp rt)
                   net st))
        = list_set (heap st) l (renewed c tok exp rt) /\
      token_file (snd (create_folder folder_name parent
                         (RefreshOk tok exp rt) net st))
        = token_file st).
Proof.
  split; [|split; [|split]].
  - intros. apply upload_file_returns.
  - intros. apply create_folder_returns.
  - intros. apply list_files_returns.
  - intros svc l c r tok exp rt folder_name parent net Hs Hl Hd Hv Hr.
    rewrite create_folder_unfold.
    rewrite (get_service_cached st Hs).
    rewrite (before_request_renews st svc tok exp rt Hl Hd Hv Hr).
    destruct net; split; reflexivity.
Qed.

(** X7 at the manager whose cached handle holds the expired first
    credential: a folder creation makes the client refresh that object in
    place, and the token file keeps the record of the first credential. *)
Lemma drive_operations_never_raise_witness :
  heap (snd (create_folder "reports" None Samples.renew_ok
               (CreateOk [("id", "d-1")]%string)
               Samples.st_handle_expired))
    = list_set (heap Samples.st_handle_expired) 0
        (renewed Samples.cred_100 "ya29.second" 500 None) /\
  token_file (snd (create_folder "reports" None Samples.renew_ok
                     (CreateOk [("id", "d-1")]%string)
                     Samples.st_handle_expired))
    = token_file Samples.st_handle_expired.
Proof.
  exact (proj2 (proj2 (proj2 (drive_operations_never_raise
                                Samples.st_handle_expired)))
               (mkService (Some 0)) 0%nat Samples.cred_100
               "1//refresh"%string "ya29.second"%string 500%Z None
               "reports"%string None (CreateOk [("id", "d-1")]%string)
               eq_refl eq_refl eq_refl eq_refl eq_refl).
Defined.

(** ** Sequences of calls *)

Section SequenceFacts.

Context {P : Pickle}.

Lemma authenticate_from_code_raises (st : State) (code redirect_uri : string)
    (state : option string) (e : exn) :
  exists st',
    authenticate_from_code code redirect_uri state (FetchRaises e) st
      = (Return false, st') /\
    credentials_untouched st st' /\ service st' = service st /\
    (trace st' = trace st \/ trace st' = trace st ++ [EvFetchToken code]).
Proof.
  unfold credentials_untouched. py_run.
  destruct (secrets_file st) eqn:Hs; simpl;
    eexists; (split; [reflexivity|]); simpl; rewrite ?Hs; repeat split;
    auto.
Qed.

Lemma authenticate_from_code_no_secrets (st : State)
    (code redirect_uri : string) (state : option string)
    (net : fetch_outcome) :
  secrets_file st = false ->
  exists st',
    authenticate_from_code code redirect_uri state net st
      = (Return false, st') /\
    credentials_untouched st st' /\ service st' = service st /\
    trace st' = trace st.
Proof.
  intros Hs. unfold credentials_untouched. py_run. rewrite Hs. simpl.
  eexists; (split; [reflexivity|]); simpl; rewrite ?Hs; repeat split; auto.
Qed.

Lemma revoke_authentication_result (st : State) :
  revoke_authentication st =
    (Return tt, with_service None (with_creds None (with_token_file None st))).
Proof.
  destruct st as [cr sv hp tf sf ck so tr].
  unfold revoke_authentication, token_path_exists, bind, gets, modify, ret.
  simpl. destruct tf; reflexivity.
Qed.

(** A manager with nothing stored, nothing in memory and no handle stays
    so under any call that is not a successful code exchange, and such a
    call sends no Drive request. *)
Lemma step_without_authorization (st : State) (c : call) :
  creds st = None -> service st = None -> token_file st = None ->
  is_successful_exchange c = false ->
  creds (step st c) = None /\ service (step st c) = None /\
  token_file (step st c) = None /\
  exists evs,
    trace (step st c) = trace st ++ evs /\
    forallb (fun ev => negb (is_drive_request ev)) evs = true.
Proof.
  intros Hc Hs Hf Hx.
  assert (Ha : fst (is_authenticated st) = Return false).
  { unfold is_authenticated, gets, creds_value. simpl. now rewrite Hc. }
  destruct c as [net|code uri state net| |f n m d renew net|n p renew net
                 |k d renew net|dt];
    simpl.
  - rewrite (load_credentials_nothing_stored st net Hf Hc). simpl.
    repeat split; auto. exists []. now rewrite app_nil_r.
  - destruct net as [c|e]; [discriminate|].
    destruct (authenticate_from_code_raises st code uri state e)
      as (st' & -> & (Hc' & _ & Hf' & _) & Hs' & Ht).
    simpl. repeat split; try congruence.
    destruct Ht as [->| ->]; [exists []; now rewrite app_nil_r|].
    eexists. split; reflexivity.
  - rewrite revoke_authentication_result. simpl.
    repeat split. exists []. now rewrite app_nil_r.
  - rewrite (upload_file_not_authenticated f n m d renew net Hs Ha). simpl.
    repeat split; auto. exists []. now rewrite app_nil_r.
  - rewrite (create_folder_not_authenticated n p renew net Hs Ha). simpl.
    repeat split; auto. exists []. now rewrite app_nil_r.
  - rewrite (list_files_not_authenticated k d renew net Hs Ha). simpl.
    repeat split; auto. exists []. now rewrite app_nil_r.
  - repeat split; auto. exists []. now rewrite app_nil_r.
Qed.

(** One Drive operation from the handle to the request: where
    [_get_service] raises, where the operation stops before the client is
    called, and where the client's preparation raises, nothing is sent;
    otherwise one request is sent, with the handle's credentials object as
    the preparation left it. *)
Lemma resource_op_step (st : State) (c : call) (renew : refresh_outcome) :
  call_renew c = Some renew ->
  match _get_service st with
  | (Raise e, st1) =>
      same_manager st1 (step st c) /\ trace (step st c) = trace st1
  | (Return svc, st1) =>
      if reaches_request c then
        match before_request svc renew st1 with
        | (Raise e, st2) =>
            same_manager st2 (step st c) /\ trace (step st c) = trace st2
        | (Return _, st2) =>
            same_manager st2 (step st c) /\
            exists req,
              trace (step st c)
                = trace st2 ++
                    [EvExecute (svc_creds_value st2 svc) (clock st2) req]
        end
      else same_manager st1 (step st c) /\ trace (step st c) = trace st1
  end.
Proof.
  intros Hr. unfold same_manager.
  destruct c as [| | |f n m d renew' net|n p renew' net|k d renew' net|];
    try discriminate; injection Hr as ->; cbn [step reaches_request].
  - rewrite upload_file_unfold.
    destruct (_get_service st) as [[svc|e] st1].
    + destruct (stream_seek f) as [| e |].
      * repeat split.
      * repeat split.
      * destruct (before_request svc renew st1) as [[[]|e] st2].
        -- split; [repeat split|]. eexists. reflexivity.
        -- repeat split.
    + repeat split.
  - rewrite create_folder_unfold.
    destruct (_get_service st) as [[svc|e] st1].
    + destruct (before_request svc renew st1) as [[[]|e] st2].
      * destruct net; (split; [repeat split|]); eexists; reflexivity.
      * repeat split.
    + repeat split.
  - rewrite list_files_unfold.
    destruct (_get_service st) as [[svc|e] st1].
    + destruct (before_request svc renew st1) as [[[]|e] st2].
      * destruct net; (split; [repeat split|]); eexists; reflexivity.
      * repeat split.
    + repeat split.
Qed.



End SequenceFacts.

(** X8.  A manager that starts with no token file sends no Drive request
    and holds no credential, no handle and no token file, after any
    sequence of calls among which no code exchange succeeded: loading,
    revoking, uploading, creating folders, listing, failed exchanges and
    the passing of time, in any order. *)
Theorem no_drive_request_before_authorization
    {P : Pickle} (cs : list call) (sf : bool) (now : Z) :
  forallb (fun c => negb (is_successful_exchange c)) cs = true ->
  forallb (fun ev => negb (is_drive_request ev))
          (trace (run cs (init None sf now))) = true /\
  creds (run cs (init None sf now)) = None /\
  service (run cs (init None sf now)) = None /\
  token_file (run cs (init None sf now)) = None.
Proof.
  assert (Hgen : forall (cs : list call) (st : State),
             forallb (fun c => negb (is_successful_exchange c)) cs = true ->
             creds st = None -> service st = None -> token_file st = None ->
             forallb (fun ev => negb (is_drive_request ev)) (trace st)
               = true ->
             forallb (fun ev => negb (is_drive_request ev))
                     (trace (run cs st)) = true /\
             creds (run cs st) = None /\ service (run cs st) = None /\
             token_file (run cs st) = None).
  { clear cs. intros cs. induction cs as [|c cs IH]; intros st Hcs Hc Hs Hf Ht.
    - simpl. auto.
    - simpl in Hcs. apply andb_true_iff in Hcs. destruct Hcs as [Hx Hcs].
      apply negb_true_iff in Hx.
      destruct (step_without_authorization st c Hc Hs Hf Hx)
        as (Hc' & Hs' & Hf' & evs & Hev & Hnone).
      unfold run. simpl. apply IH; auto.
      rewrite Hev, forallb_app, Ht, Hnone. reflexivity. }
  intros Hcs. apply Hgen; auto.
Qed.

(** X8 at a new manager that is asked to upload and to list, sees a code
    exchange fail, and is revoked. *)
Lemma no_drive_request_before_authorization_witness :
  forallb (fun ev => negb (is_drive_request ev))
    (trace (run (P := TestPickle.test_pickle)
              [ Samples.upload_report;
                CallAuthenticate "bad" "https://app/callback" None
                  (FetchRaises (OAuthError "invalid_grant"));
                CallListFiles 10 None Samples.renew_ok (ListOk (Some []));
                CallRevoke; Elapse 5;
                CallLoad (RefreshRaises (TransportError "unused")) ]
              (init None true 0))) = true /\
  creds (run (P := TestPickle.test_pickle)
              [ Samples.upload_report;
                CallAuthenticate "bad" "https://app/callback" None
                  (FetchRaises (OAuthError "invalid_grant"));
                CallListFiles 10 None Samples.renew_ok (ListOk (Some []));
                CallRevoke; Elapse 5;
                CallLoad (RefreshRaises (TransportError "unused")) ]
              (init None true 0)) = None /\
  service (run (P := TestPickle.test_pickle)
              [ Samples.upload_report;
                CallAuthenticate "bad" "https://app/callback" None
                  (FetchRaises (OAuthError "invalid_grant"));
                CallListFiles 10 None Samples.renew_ok (ListOk (Some []));
                CallRevoke; Elapse 5;
                CallLoad (RefreshRaises (TransportError "unused")) ]
              (init None true 0)) = None /\
  token_file (run (P := TestPickle.test_pickle)
              [ Samples.upload_report;
                CallAuthenticate "bad" "https://app/callback" None
                  (FetchRaises (OAuthError "invalid_grant"));
                CallListFiles 10 None Samples.renew_ok (ListOk (Some []));
                CallRevoke; Elapse 5;
                CallLoad (RefreshRaises (TransportError "unused")) ]
              (init None true 0)) = None.
Proof.
  apply (@no_drive_request_before_authorization TestPickle.test_pickle).
  reflexivity.
Defined.

(** X9.  Authorizing again while a service handle is cached does not
    replace the handle: [self.creds] becomes the new credential, but the
    next Drive operation keeps the old handle and works on the credentials
    object that handle was built on.  If that old credential is still
    valid the request is sent with it.  If it is not, the Drive client
    refreshes the old object, not the new credential, and sends the
    request with the result; when the old object has no refresh token or
    the refresh fails, nothing is sent.  The operation is one that reaches
    its request: a folder creation, a listing, or an upload of an object
    whose [seek] works. *)
Theorem reauthorization_keeps_cached_handle
    {P : Pickle} (st : State) (svc : Service) (c_old c_new : Credentials)
    (code redirect_uri : string) (state : option string) (op : call)
    (renew : refresh_outcome) :
  secrets_file st = true ->
  service st = Some svc ->
  svc_creds_value st svc = Some c_old ->
  reaches_request op = true ->
  call_renew op = Some renew ->
  creds_value
    (snd (authenticate_from_code code redirect_uri state (FetchOk c_new) st))
    = Some c_new /\
  service
    (step (snd (authenticate_from_code code redirect_uri state
                  (FetchOk c_new) st)) op) = Some svc /\
  creds_value
    (step (snd (authenticate_from_code code redirect_uri state
                  (FetchOk c_new) st)) op) = Some c_new /\
  (valid c_old (clock st) = true ->
   exists req,
     trace (step (snd (authenticate_from_code code redirect_uri state
                         (FetchOk c_new) st)) op)
       = trace (snd (authenticate_from_code code redirect_uri state
                       (FetchOk c_new) st))
           ++ [EvExecute (Some c_old) (clock st) req]) /\
  (valid c_old (clock st) = false ->
   forall r tok exp rt,
     refresh_token c_old = Some r -> renew = RefreshOk tok exp rt ->
     exists req,
       trace (step (snd (authenticate_from_code code redirect_uri state
                           (FetchOk c_new) st)) op)
         = trace (snd (authenticate_from_code code redirect_uri state
                         (FetchOk c_new) st))
             ++ [EvRefresh c_old;
                 EvExecute (Some (renewed c_old tok exp rt)) (clock st)
                           req]) /\
  (valid c_old (clock st) = false ->
   forall r e,
     refresh_token c_old = Some r -> renew = RefreshRaises e ->
     trace (step (snd (authenticate_from_code code redirect_uri state
                         (FetchOk c_new) st)) op)
       = trace (snd (authenticate_from_code code redirect_uri state
                       (FetchOk c_new) st))
           ++ [EvRefresh c_old]) /\
  (valid c_old (clock st) = false -> refresh_token c_old = None ->
   trace (step (snd (authenticate_from_code code redirect_uri state
                       (FetchOk c_new) st)) op)
     = trace (snd (authenticate_from_code code redirect_uri state
                     (FetchOk c_new) st))).
Proof.
  intros Hsf Hs Hold Hreach Hrenew.
  rewrite (authenticate_from_code_ok st code redirect_uri state c_new Hsf).
  simpl.
  set (st1 := with_token_file (Some (pickle_dumps (Some c_new)))
                (with_creds (Some (List.length (heap st)))
                   (with_heap (heap st ++ [c_new])
                      (with_trace (trace st ++ [EvFetchToken code]) st)))).
  assert (Hs1 : service st1 = Some svc) by exact Hs.
  assert (Hck1 : clock st1 = clock st) by reflexivity.
  unfold svc_creds_value in Hold.
  destruct (svc_credentials svc) as [l|] eqn:Hl; [|discriminate].
  assert (Hd1 : deref st1 l = Some c_old).
  { unfold deref. simpl. now apply deref_alloc. }
  assert (Hold1 : svc_creds_value st1 svc = Some c_old).
  { unfold svc_creds_value. now rewrite Hl. }
  assert (Hnew1 : creds_value st1 = Some c_new).
  { unfold creds_value, deref. simpl. apply deref_fresh. }
  assert (Hlt : (l < List.length (heap st))%nat).
  { apply nth_error_Some. unfold deref in Hold. congruence. }
  pose proof (get_service_cached st1 Hs1) as Hg.
  pose proof (resource_op_step st1 op Hrenew) as Hstep.
  rewrite Hg, Hreach in Hstep.
  split; [exact Hnew1|].
  destruct (valid c_old (clock st)) eqn:Hv.
  - rewrite (before_request_valid st1 svc renew Hold1 Hv) in Hstep.
    destruct Hstep as ((Hc & Hsv & Hh & _) & req & Hreq).
    rewrite Hold1 in Hreq.
    split; [congruence|]. split.
    { unfold creds_value, deref in *. now rewrite Hc, Hh. }
    split; [intros _; exists req; exact Hreq|].
    repeat split; discriminate.
  - destruct (refresh_token c_old) as [r|] eqn:Hrt.
    + destruct renew as [tok exp rt|e].
      * rewrite (before_request_renews st1 svc tok exp rt Hl Hd1 Hv Hrt)
          in Hstep.
        destruct Hstep as ((Hc & Hsv & Hh & _) & req & Hreq).
        split; [exact (eq_trans Hsv Hs1)|]. split.
        { unfold creds_value, deref. rewrite Hc, Hh. simpl.
          rewrite nth_error_list_set_other by lia. apply deref_fresh. }
        split; [discriminate|]. split.
        { intros _ r' tok' exp' rt' _ Heq. injection Heq as <- <- <-.
          exists req. rewrite Hreq. simpl.
          unfold svc_creds_value. rewrite Hl. unfold deref. simpl.
          rewrite (list_set_lookup _ _ _ Hd1).
          now rewrite <- app_assoc. }
        split; [intros _ r' e' _ Heq; discriminate|].
        intros _ Hn; discriminate.
      * rewrite (before_request_refresh_raises st1 svc e Hl Hd1 Hv Hrt)
          in Hstep.
        destruct Hstep as ((Hc & Hsv & Hh & _) & Hreq).
        split; [exact (eq_trans Hsv Hs1)|]. split.
        { unfold creds_value, deref in *. now rewrite Hc, Hh. }
        split; [discriminate|]. split.
        { intros _ r' tok' exp' rt' _ Heq; discriminate. }
        split; [intros _ r' e' _ _; exact Hreq|].
        intros _ Hn; discriminate.
    + rewrite (before_request_no_refresh_token st1 svc renew Hl Hd1 Hv Hrt)
        in Hstep.
      destruct Hstep as ((Hc & Hsv & Hh & _) & Hreq).
      split; [congruence|]. split.
      { unfold creds_value, deref in *. now rewrite Hc, Hh. }
      split; [discriminate|]. split.
      { intros _ r' tok' exp' rt' Heq; discriminate. }
      split; [intros _ r' e' Heq; discriminate|].
      intros _ _; exact Hreq.
Qed.

(** X9 at the manager whose handle was built on the first credential,
    which has expired: after a new exchange answered with the second
    credential, the upload makes the client refresh the first credential
    and carries the result, while [self.creds] holds the second. *)
Lemma reauthorization_keeps_cached_handle_witness :
  creds_value
    (snd (authenticate_from_code (P := TestPickle.test_pickle)
            "def456" "https://app/callback" None
            (FetchOk Samples.cred_500) Samples.st_handle_expired))
    = Some Samples.cred_500 /\
  service
    (step (P := TestPickle.test_pickle)
       (snd (authenticate_from_code (P := TestPickle.test_pickle)
               "def456" "https://app/callback" None
               (FetchOk Samples.cred_500) Samples.st_handle_expired))
       Samples.upload_report) = Some (mkService (Some 0)) /\
  exists req,
    trace (step (P := TestPickle.test_pickle)
             (snd (authenticate_from_code (P := TestPickle.test_pickle)
                     "def456" "https://app/callback" None
                     (FetchOk Samples.cred_500) Samples.st_handle_expired))
             Samples.upload_report)
      = trace (snd (authenticate_from_code (P := TestPickle.test_pickle)
                      "def456" "https://app/callback" None
                      (FetchOk Samples.cred_500) Samples.st_handle_expired))
          ++ [EvRefresh Samples.cred_100;
              EvExecute
                (Some (renewed Samples.cred_100 "ya29.second" 500 None))
                (clock Samples.st_handle_expired) req].
Proof.
  destruct (@reauthorization_keeps_cached_handle TestPickle.test_pickle
              Samples.st_handle_expired (mkService (Some 0))
              Samples.cred_100 Samples.cred_500
              "def456" "https://app/callback" None Samples.upload_report
              Samples.renew_ok eq_refl eq_refl eq_refl eq_refl eq_refl)
    as (H1 & H2 & _ & _ & H5 & _).
  split; [exact H1|]. split; [exact H2|].
  exact (H5 eq_refl "1//refresh"%string "ya29.second"%string 500%Z None
            eq_refl eq_refl).
Defined.

(** The valid case of X9: the handle was built on the first credential,
    which is still good at time 50; after the second exchange the upload
    still goes out with the first. *)
Example reauthorization_sends_with_old_credential :
  trace (run (P := TestPickle.test_pickle)
           [ CallAuthenticate "abc123" "https://app/callback" None
               (FetchOk Samples.cred_100);
             CallListFiles 10 None Samples.renew_ok (ListOk (Some []));
             Elapse 50;
             CallAuthenticate "def456" "https://app/callback" None
               (FetchOk Samples.cred_500);
             Samples.upload_report ]
           Samples.st_new)
    = [ EvFetchToken "abc123";
        EvExecute (Some Samples.cred_100) 0 (list_request 10 None);
        EvFetchToken "def456";
        EvExecute (Some Samples.cred_100) 50
          (FilesCreate (upload_metadata "report.pdf" None)
             (Some (mkMedia (mkStream Samples.pdf_bytes 0 SeekWorks)
                            "application/pdf" true))
             upload_fields) ].
Proof. vm_compute. reflexivity. Qed.

(** X10.  After [revoke_authentication] and a successful code exchange
    that brings a valid credential, the next Drive operation builds a new
    handle on the new credentials object, and any request it sends goes
    out with the new credential, whatever handle was cached before the
    revoke. *)
Theorem revoke_then_authorize_uses_new_credential
    {P : Pickle} (st : State) (c_new : Credentials)
    (code redirect_uri : string) (state : option string) (op : call) :
  secrets_file st = true ->
  valid c_new (clock st) = true ->
  is_resource_op op = true ->
  service
    (step (snd (authenticate_from_code code redirect_uri state
                  (FetchOk c_new) (snd (revoke_authentication st)))) op)
    = Some (mkService (Some (List.length (heap st)))) /\
  deref
    (step (snd (authenticate_from_code code redirect_uri state
                  (FetchOk c_new) (snd (revoke_authentication st)))) op)
    (List.length (heap st)) = Some c_new /\
  exists evs,
    trace (step (snd (authenticate_from_code code redirect_uri state
                        (FetchOk c_new) (snd (revoke_authentication st))))
             op)
      = trace (snd (authenticate_from_code code redirect_uri state
                      (FetchOk c_new) (snd (revoke_authentication st))))
          ++ evs /\
    forall ev, In ev evs ->
      exists req, ev = EvExecute (Some c_new) (clock st) req.
Proof.
  intros Hsf Hv Hop.
  rewrite revoke_authentication_result. simpl.
  set (st0 := with_service None (with_creds None (with_token_file None st))).
  assert (Hsf0 : secrets_file st0 = true) by exact Hsf.
  rewrite (authenticate_from_code_ok st0 code redirect_uri state c_new Hsf0).
  simpl.
  set (st1 := with_token_file (Some (pickle_dumps (Some c_new)))
                (with_creds (Some (List.length (heap st0)))
                   (with_heap (heap st0 ++ [c_new])
                      (with_trace (trace st0 ++ [EvFetchToken code]) st0)))).
  cut (service (step st1 op)
         = Some (mkService (Some (List.length (heap st)))) /\
       deref (step st1 op) (List.length (heap st)) = Some c_new /\
       exists evs,
         trace (step st1 op) = trace st1 ++ evs /\
         forall ev, In ev evs ->
           exists req, ev = EvExecute (Some c_new) (clock st) req);
    [intros H; exact H|].
  assert (Hd : deref st1 (List.length (heap st)) = Some c_new).
  { unfold deref. simpl. apply deref_fresh. }
  assert (Ha : fst (is_authenticated st1) = Return true).
  { unfold is_authenticated, gets, creds_value. simpl.
    change (deref st1 (List.length (heap st))) with
      (nth_error (heap st ++ [c_new]) (List.length (heap st))).
    rewrite deref_fresh. now rewrite <- Hv. }
  assert (Hs1 : service st1 = None) by reflexivity.
  pose proof (get_service_builds Hs1 Ha) as Hg.
  set (st2 := with_service (Some (mkService (creds st1))) st1) in *.
  assert (Hcr : svc_creds_value st2 (mkService (creds st1)) = Some c_new)
    by exact Hd.
  assert (Hv2 : valid c_new (clock st2) = true) by exact Hv.
  destruct (call_renew op) as [renew|] eqn:Hr;
    [|destruct op; discriminate].
  pose proof (resource_op_step st1 op Hr) as Hstep.
  rewrite Hg in Hstep.
  rewrite (before_request_valid st2 (mkService (creds st1)) renew Hcr Hv2)
    in Hstep.
  assert (Hsame : same_manager st2 (step st1 op) /\
                  (trace (step st1 op) = trace st2 \/
                   exists req,
                     trace (step st1 op)
                       = trace st2 ++
                           [EvExecute (Some c_new) (clock st) req])).
  { destruct (reaches_request op).
    - destruct Hstep as (Hm & req & Hreq). split; [exact Hm|].
      right. exists req. rewrite Hreq, Hcr. reflexivity.
    - destruct Hstep as (Hm & Hreq). split; [exact Hm|]. now left. }
  destruct Hsame as ((Hc & Hsv & Hh & _) & Htr).
  split; [rewrite Hsv; reflexivity|].
  split; [unfold deref in *; rewrite Hh; exact Hd|].
  destruct Htr as [Ht|(req & Ht)].
  - exists []. split; [rewrite Ht, app_nil_r; reflexivity|]. intros ev [].
  - eexists. split; [exact Ht|].
    intros ev [<-|[]]. exists req. reflexivity.
Qed.

(** X10 at the manager whose cached handle outlived the first credential:
    revoked, then authorized with the second credential, its upload
    carries the second. *)
Lemma revoke_then_authorize_uses_new_credential_witness :
  service
    (step (P := TestPickle.test_pickle)
       (snd (authenticate_from_code (P := TestPickle.test_pickle)
               "def456" "https://app/callback" None
               (FetchOk Samples.cred_500)
               (snd (revoke_authentication Samples.st_handle_expired))))
       Samples.upload_report)
    = Some (mkService (Some (List.length (heap Samples.st_handle_expired))))
  /\
  deref
    (step (P := TestPickle.test_pickle)
       (snd (authenticate_from_code (P := TestPickle.test_pickle)
               "def456" "https://app/callback" None
               (FetchOk Samples.cred_500)
               (snd (revoke_authentication Samples.st_handle_expired))))
       Samples.upload_report)
    (List.length (heap Samples.st_handle_expired)) = Some Samples.cred_500
  /\
  exists evs,
    trace (step (P := TestPickle.test_pickle)
             (snd (authenticate_from_code (P := TestPickle.test_pickle)
                     "def456" "https://app/callback" None
                     (FetchOk Samples.cred_500)
                     (snd (revoke_authentication
                             Samples.st_handle_expired))))
             Samples.upload_report)
      = trace (snd (authenticate_from_code (P := TestPickle.test_pickle)
                      "def456" "https://app/callback" None
                      (FetchOk Samples.cred_500)
                      (snd (revoke_authentication
                              Samples.st_handle_expired))))
          ++ evs /\
    forall ev, In ev evs ->
      exists req,
        ev = EvExecute (Some Samples.cred_500)
                       (clock Samples.st_handle_expired) req.
Proof.
  apply (@revoke_then_authorize_uses_new_credential TestPickle.test_pickle
           Samples.st_handle_expired Samples.cred_500
           "def456" "https://app/callback" None Samples.upload_report);
    vm_compute; reflexivity.
Defined.

(** ** Every request carries a valid credential *)



(** What that sequence sends: the listing with the first credential at
    time 0; at time 200 the client refreshes the expired credential of
    the handle, and the upload goes out with the renewed one. *)
Example upload_after_expiry_sends_renewed_credential :
  trace (run (P := TestPickle.test_pickle) Samples.calls_after_expiry
           Samples.st_new)
    = [ EvFetchToken "abc123";
        EvExecute (Some Samples.cred_100) 0 (list_request 10 None);
        EvRefresh Samples.cred_100;
        EvExecute (Some (renewed Samples.cred_100 "ya29.second" 500 None))
          200
          (FilesCreate (upload_metadata "report.pdf" None)
             (Some (mkMedia (mkStream Samples.pdf_bytes 0 SeekWorks)
                            "application/pdf" true))
             upload_fields) ]
  /\ valid (renewed Samples.cred_100 "ya29.second" 500 None) 200 = true
  /\ valid Samples.cred_100 200 = false.
Proof. repeat split; vm_compute; reflexivity. Qed.

(** When the token endpoint rejects the client's refresh, the same upload
    sends nothing and reports the failure. *)
Example upload_after_expiry_refresh_rejected :
  upload_file Samples.content_seekable "report.pdf" None None
    (RefreshRaises (RefreshError "invalid_grant"))
    (CreateOk Samples.created_file) Samples.st_handle_expired
  = (Return (UploadFailure "invalid_grant"),
     with_trace (trace Samples.st_handle_expired
                   ++ [EvRefresh Samples.cred_100])
                Samples.st_handle_expired).
Proof. vm_compute. reflexivity. Qed.

(** ** The stored record over any sequence of calls *)

Section RecordFacts.

Context {P : Pickle}.

(** Where [load_credentials] leaves the token file: as it was, or holding
    the pickle of a credential. *)
Lemma load_credentials_record (st : State) (net : refresh_outcome) :
  token_file (snd (load_credentials net st)) = token_file st \/
  exists c,
    token_file (snd (load_credentials net st))
      = Some (pickle_dumps (Some c)).
Proof.
  destruct (token_file st) as [b|] eqn:Hf.
  - destruct (pickle_loads b) as [[c|]|] eqn:Hl.
    + destruct (expired c (clock st) && truthy (refresh_token c)) eqn:Hn.
      * apply andb_true_iff in Hn as Hn'. destruct Hn' as [He Hr].
        destruct net as [tok exp rt|e].
        -- rewrite (load_credentials_refresh_ok_loaded st tok exp rt
                      Hf Hl He Hr).
           simpl. right. eauto.
        -- rewrite (load_credentials_refresh_raises_loaded st e Hf Hl He Hr).
           simpl. now left.
      * rewrite (load_credentials_no_refresh st net Hf Hl Hn).
        simpl. now left.
    + rewrite (load_credentials_pickled_none st net Hf Hl). simpl. now left.
    + rewrite (load_credentials_unparsable_raises st net Hf Hl).
      simpl. now left.
  - destruct (creds st) as [l|] eqn:Hc.
    + destruct (deref st l) as [c|] eqn:Hd.
      * destruct (expired c (clock st) && truthy (refresh_token c)) eqn:Hn.
        -- apply andb_true_iff in Hn as Hn'. destruct Hn' as [He Hr].
           destruct net as [tok exp rt|e].
           ++ rewrite (load_credentials_refresh_ok_in_memory st tok exp rt
                         Hf Hc Hd He Hr).
              simpl. right. eauto.
           ++ rewrite (load_credentials_refresh_raises_in_memory st e
                         Hf Hc Hd He Hr).
              simpl. now left.
        -- rewrite (load_credentials_in_memory_no_refresh st net
                      Hf Hc Hd Hn).
           simpl. now left.
      * rewrite (load_credentials_in_memory_dangling st net Hf Hc Hd).
        simpl. now left.
    + rewrite (load_credentials_nothing_stored st net Hf Hc).
      simpl. now left.
Qed.

Lemma step_keeps_record (st : State) (c : call) :
  record_well_formed st -> record_well_formed (step st c).
Proof.
  intros Hw. unfold record_well_formed in *.
  destruct c as [net|code uri state net| |f n m d renew net|n p renew net
                 |k d renew net|dt];
    simpl.
  - destruct (load_credentials_record st net) as [-> | [c Hc]];
      [exact Hw | right; eauto].
  - destruct net as [c|e].
    + destruct (secrets_file st) eqn:Hs.
      * rewrite (authenticate_from_code_ok st code uri state c Hs).
        simpl. right. eauto.
      * destruct (authenticate_from_code_no_secrets st code uri state
                    (FetchOk c) Hs)
          as (st' & -> & (_ & _ & Hf & _) & _).
        simpl. now rewrite Hf.
    + destruct (authenticate_from_code_raises st code uri state e)
        as (st' & -> & (_ & _ & Hf & _) & _).
      simpl. now rewrite Hf.
  - rewrite revoke_authentication_result. simpl. now left.
  - destruct (upload_file_returns st f n m d renew net)
      as (r & st' & -> & (_ & Hf & _)).
    simpl. now rewrite Hf.
  - destruct (create_folder_returns st n p renew net)
      as (r & st' & -> & (_ & Hf & _)).
    simpl. now rewrite Hf.
  - destruct (list_files_returns st k d renew net)
      as (r & st' & -> & (_ & Hf & _)).
    simpl. now rewrite Hf.
  - exact Hw.
Qed.

(** On a well-formed record [load_credentials] returns. *)
Lemma load_credentials_returns_on_record (laws : PickleLaws P)
    (st : State) (net : refresh_outcome) :
  record_well_formed st ->
  exists b st', load_credentials net st = (Return b, st').
Proof.
  intros [Hf | [c Hf]].
  - now apply load_credentials_missing_returns.
  - pose proof (loads_dumps laws (Some c)) as Hl.
    destruct (expired c (clock st) && truthy (refresh_token c)) eqn:Hn.
    + apply andb_true_iff in Hn as Hn'. destruct Hn' as [He Hr].
      destruct net as [tok exp rt|e].
      * rewrite (load_credentials_refresh_ok_loaded st tok exp rt
                   Hf Hl He Hr). eauto.
      * rewrite (load_credentials_refresh_raises_loaded st e Hf Hl He Hr).
        eauto.
    + rewrite (load_credentials_no_refresh st net Hf Hl Hn). eauto.
Qed.

End RecordFacts.

(** X11.  The manager never spoils its own token file.  If the file is
    absent or holds the complete pickle of a credential, then after any
    sequence of calls (each running to its end) it is again absent or the
    complete pickle of a credential, so [load_credentials] afterwards
    returns and does not raise. *)
Theorem token_file_stays_well_formed
    {P : Pickle} (laws : PickleLaws P) (st : State) (cs : list call)
    (net : refresh_outcome) :
  record_well_formed st ->
  record_well_formed (run cs st) /\
  exists b st', load_credentials net (run cs st) = (Return b, st').
Proof.
  intros Hw.
  assert (Hrun : record_well_formed (run cs st)).
  { revert st Hw. induction cs as [|c cs IH]; intros st Hw; [exact Hw|].
    unfold run. simpl. apply IH. now apply step_keeps_record. }
  split; [exact Hrun|].
  now apply load_credentials_returns_on_record.
Qed.

(** X11 at a new manager taken through an exchange, a listing, the expiry
    of the credential, a rejected refresh and an upload. *)
Lemma token_file_stays_well_formed_witness :
  record_well_formed (P := TestPickle.test_pickle)
    (run (P := TestPickle.test_pickle)
       (Samples.calls_after_rejected_refresh ++ [Samples.upload_report])
       Samples.st_new) /\
  exists b st',
    load_credentials (P := TestPickle.test_pickle)
      (RefreshOk "ya29.second" 500 None)
      (run (P := TestPickle.test_pickle)
         (Samples.calls_after_rejected_refresh ++ [Samples.upload_report])
         Samples.st_new)
      = (Return b, st').
Proof.
  apply (@token_file_stays_well_formed TestPickle.test_pickle
           TestPickleFacts.test_pickle_laws Samples.st_new).
  left. reflexivity.
Defined.

(** ** The client-secret file *)

(** X12.  With the client-secret file missing, [get_authorization_url]
    raises [FileNotFoundError] with a message that names the configured
    path (['credentials.json'] when the constructor got no path or an
    empty one), while [authenticate_from_code] returns [False] without
    contacting the token endpoint; with the file present,
    [get_authorization_url] returns the flow's URL and state.  In no case
    does [get_authorization_url] change the manager. *)
Theorem client_secret_file_missing
    {P : Pickle} (st : State) (cp tp : option string)
    (redirect_uri : string) (answer : string * string) :
  (secrets_file st = false ->
     get_authorization_url (__init__ cp tp) redirect_uri answer st
       = (Raise (FileNotFoundError
                   (credentials_not_found_msg (__init__ cp tp))), st) /\
     (truthy cp = false ->
        credentials_not_found_msg (__init__ cp tp)
          = String.append "Credentials file not found: credentials.json"
              (String.append newline
                 "Please download credentials.json from Google Cloud Console"))
     /\
     forall code state net,
       fst (authenticate_from_code code redirect_uri state net st)
         = Return false /\
       trace (snd (authenticate_from_code code redirect_uri state net st))
         = trace st)
  /\
  (secrets_file st = true ->
     get_authorization_url (__init__ cp tp) redirect_uri answer st
       = (Return answer, st)).
Proof.
  split.
  - intros Hs. repeat split.
    + unfold get_authorization_url, bind, gets, raise. simpl.
      now rewrite Hs.
    + intros Hcp. unfold credentials_not_found_msg, __init__, or_else.
      simpl. destruct cp as [s|]; [|reflexivity].
      rewrite Hcp. reflexivity.
    + destruct (authenticate_from_code_no_secrets st code redirect_uri
                  state net Hs) as (st' & -> & _). reflexivity.
    + destruct (authenticate_from_code_no_secrets st code redirect_uri
                  state net Hs) as (st' & -> & _ & _ & Ht). exact Ht.
  - intros Hs.
    unfold get_authorization_url, from_client_secrets_file, bind, gets,
      raise, ret.
    simpl. rewrite Hs. simpl. rewrite Hs. now destruct answer.
Qed.

(** X12 at a manager built with an empty credentials path in a directory
    without a client-secret file, and at one with the file. *)
Lemma client_secret_file_missing_witness :
  get_authorization_url (__init__ (Some EmptyString) None)
      "https://app/callback" ("https://accounts.example/auth", "xyz")%string
      (init None false 0)
    = (Raise (FileNotFoundError
                (credentials_not_found_msg
                   (__init__ (Some EmptyString) None))),
       init None false 0)
  /\
  get_authorization_url (__init__ (Some EmptyString) None)
      "https://app/callback" ("https://accounts.example/auth", "xyz")%string
      (init None true 0)
    = (Return ("https://accounts.example/auth", "xyz")%string,
       init None true 0).
Proof.
  split.
  - exact (proj1 (proj1 (@client_secret_file_missing TestPickle.test_pickle
                           (init None false 0) (Some EmptyString) None
                           "https://app/callback"
                           ("https://accounts.example/auth", "xyz")%string)
                        eq_refl)).
  - exact (proj2 (@client_secret_file_missing TestPickle.test_pickle
                    (init None true 0) (Some EmptyString) None
                    "https://app/callback"
                    ("https://accounts.example/auth", "xyz")%string)
                 eq_refl).
Defined.

(** ** create_folder and list_files *)

Section FolderFacts.

(** The body of the request [create_folder] sends. *)
Lemma folder_metadata_body (folder_name : string) (parent : option string) :
  In ("name"%string, JStr folder_name) (folder_metadata folder_name parent)
  /\
  In ("mimeType"%string, JStr "application/vnd.google-apps.folder")
     (folder_metadata folder_name parent) /\
  (forall pid,
      In ("parents"%string, JList [pid]) (folder_metadata folder_name parent)
      <-> parent = Some pid /\ pid <> EmptyString).
Proof.
  unfold folder_metadata. split; [|split].
  - destruct parent as [pid|]; simpl;
      [destruct (negb (pid =? ""))%string|]; simpl; auto.
  - destruct parent as [pid|]; simpl;
      [destruct (negb (pid =? ""))%string|]; simpl; auto.
  - intros pid'. destruct parent as [pid|]; simpl.
    + destruct (String.eqb_spec pid "") as [->|Hne]; simpl.
      * split.
        -- intros [H|[H|[]]]; discriminate.
        -- intros [H Hn]. injection H as <-. now elim Hn.
      * split.
        -- intros [H|[H|[H|[]]]]; try discriminate.
           injection H as <-. auto.
        -- intros [H _]. injection H as <-. auto.
    + split.
      * intros [H|[H|[]]]; discriminate.
      * intros [H _]. discriminate.
Qed.

End FolderFacts.

(** X13.  [create_folder] returns a folder id exactly when it got a
    service handle, the Drive client had or obtained a usable credential,
    the request succeeded and the response carries an ['id']; in every
    other case it returns [None].  A request it sends is a create without
    media whose body names the folder, carries the folder mimeType, and
    lists a parent exactly when a non-empty parent id was given; before it
    the trace can hold the one refresh the client makes. *)
Theorem create_folder_returns_id_iff
    (st : State) (folder_name : string) (parent : option string)
    (renew : refresh_outcome) (net : create_outcome) (id : string) :
  (fst (create_folder folder_name parent renew net st) = Return (Some id) <->
   exists svc st1 st2 f,
     _get_service st = (Return svc, st1) /\
     before_request svc renew st1 = (Return tt, st2) /\
     net = CreateOk f /\ dict_get "id" f = Some id)
  /\
  (fst (create_folder folder_name parent renew net st) = Return None \/
   exists id', fst (create_folder folder_name parent renew net st)
                 = Return (Some id'))
  /\
  (exists pre,
     (pre = [] \/ exists c0, pre = [EvRefresh c0]) /\
     (trace (snd (create_folder folder_name parent renew net st))
        = trace st ++ pre \/
      exists c t body,
        trace (snd (create_folder folder_name parent renew net st)) =
          trace st ++ pre ++ [EvExecute c t (FilesCreate body None "id")] /\
        In ("name"%string, JStr folder_name) body /\
        In ("mimeType"%string, JStr "application/vnd.google-apps.folder")
           body /\
        (forall pid, In ("parents"%string, JList [pid]) body <->
                     parent = Some pid /\ pid <> EmptyString)))
  /\
  (forall svc st1 st2,
      _get_service st = (Return svc, st1) ->
      before_request svc renew st1 = (Return tt, st2) ->
      trace (snd (create_folder folder_name parent renew net st)) =
        trace st2 ++
          [EvExecute (svc_creds_value st2 svc) (clock st)
             (FilesCreate (folder_metadata folder_name parent) None "id")]).
Proof.
  rewrite create_folder_unfold.
  destruct (_get_service st) as [[svc|e] st1] eqn:Hs;
    destruct (get_service_frame st Hs) as (Ht & Hck & _).
  - destruct (before_request svc renew st1) as [[[]|e] st2] eqn:Hb;
      destruct (before_request_trace st1 svc renew Hb)
        as (pre & Hpre & Ht2);
      destruct (before_request_effects st1 svc renew Hb)
        as (_ & _ & _ & _ & Hck2 & _).
    + split; [|split; [|split]].
      * split.
        -- intros H. destruct net as [f|e]; [|discriminate].
           injection H as H. eauto 8.
        -- intros (svc' & st1' & st2' & f & _ & _ & -> & Hid).
           simpl. now rewrite Hid.
      * destruct net as [f|e]; [|now left]. simpl.
        destruct (dict_get "id" f); [right; eauto | now left].
      * exists pre. split; [exact Hpre|]. right.
        exists (svc_creds_value st2 svc), (clock st2),
               (folder_metadata folder_name parent).
        split; [|apply folder_metadata_body].
        destruct net; simpl; rewrite Ht2, Ht; now rewrite <- app_assoc.
      * intros svc' st1' st2' H1 H2.
        injection H1 as <- <-. rewrite Hb in H2. injection H2 as <-.
        destruct net; simpl; rewrite Hck2, Hck; reflexivity.
    + split; [|split; [|split]].
      * split; [discriminate|].
        intros (svc' & st1' & st2' & f & H1 & H2 & _).
        injection H1 as <- <-. rewrite Hb in H2. discriminate.
      * now left.
      * exists pre. split; [exact Hpre|]. left.
        simpl. now rewrite Ht2, Ht.
      * intros svc' st1' st2' H1 H2.
        injection H1 as <- <-. rewrite Hb in H2. discriminate.
  - split; [|split; [|split]].
    + split; [discriminate|].
      intros (svc' & st1' & st2' & f & H & _). discriminate.
    + now left.
    + exists []. split; [now left|]. left. simpl.
      now rewrite Ht, app_nil_r.
    + intros svc' st1' st2' H1. discriminate.
Qed.

(** X13 at the authorized manager and a response that carries the id
    ['d-1']. *)
Lemma create_folder_returns_id_iff_witness :
  fst (create_folder "reports" (Some EmptyString) Samples.renew_ok
         (CreateOk [("id", "d-1")]%string) Samples.st_authed)
    = Return (Some "d-1"%string).
Proof.
  apply (proj2 (proj1 (create_folder_returns_id_iff Samples.st_authed
                         "reports" (Some EmptyString) Samples.renew_ok
                         (CreateOk [("id", "d-1")]%string) "d-1"))).
  exists (mkService (Some 0)),
         (with_service (Some (mkService (Some 0))) Samples.st_authed),
         (with_service (Some (mkService (Some 0))) Samples.st_authed),
         [("id", "d-1")]%string.
  repeat split; reflexivity.
Defined.

(** X14.  [list_files] returns a non-empty list exactly when it got a
    service handle, the Drive client had or obtained a usable credential
    and the response carries that list under ['files'].  It returns the
    empty list when no handle is to be had, when the client cannot renew
    the credential, when the request raises and when the response has no
    ['files'] entry, so that the caller cannot tell these from an empty
    folder.  An empty folder id filters nothing, like no folder id. *)
Theorem list_files_result
    (st : State) (page_size : Z) (folder_id : option string)
    (renew : refresh_outcome) (net : list_outcome) :
  (forall fs, fs <> [] ->
     (fst (list_files page_size folder_id renew net st) = Return fs <->
      exists svc st1 st2,
        _get_service st = (Return svc, st1) /\
        before_request svc renew st1 = (Return tt, st2) /\
        net = ListOk (Some fs)))
  /\
  ((forall svc st1, _get_service st <> (Return svc, st1)) \/
   (exists svc st1 e st2,
       _get_service st = (Return svc, st1) /\
       before_request svc renew st1 = (Raise e, st2)) \/
   (exists e, net = ListRaises e) \/ net = ListOk None \/
   net = ListOk (Some []) ->
   fst (list_files page_size folder_id renew net st) = Return [])
  /\
  list_files page_size (Some EmptyString) renew net st
    = list_files page_size None renew net st
  /\
  (forall svc st1 st2,
      _get_service st = (Return svc, st1) ->
      before_request svc renew st1 = (Return tt, st2) ->
      trace (snd (list_files page_size folder_id renew net st)) =
        trace st2 ++
          [EvExecute (svc_creds_value st2 svc) (clock st)
             (list_request page_size folder_id)]).
Proof.
  split; [|split; [|split; [reflexivity|]]].
  - intros fs Hne. rewrite list_files_unfold.
    destruct (_get_service st) as [[svc|e] st1] eqn:Hs.
    + destruct (before_request svc renew st1) as [[[]|e] st2] eqn:Hb.
      * destruct net as [[fs'|]|e]; simpl.
        -- split.
           ++ intros H. injection H as ->. eauto 6.
           ++ intros (svc' & st1' & st2' & _ & _ & H). now injection H as ->.
        -- split.
           ++ intros H. injection H as <-. now elim Hne.
           ++ intros (svc' & st1' & st2' & _ & _ & H). discriminate.
        -- split.
           ++ intros H. injection H as <-. now elim Hne.
           ++ intros (svc' & st1' & st2' & _ & _ & H). discriminate.
      * simpl. split.
        -- intros H. injection H as <-. now elim Hne.
        -- intros (svc' & st1' & st2' & H1 & H2 & _).
           injection H1 as <- <-. rewrite Hb in H2. discriminate.
    + simpl. split.
      * intros H. injection H as <-. now elim Hne.
      * intros (svc' & st1' & st2' & H & _). discriminate.
  - intros Hcase. rewrite list_files_unfold.
    destruct (_get_service st) as [[svc|e] st1] eqn:Hs.
    + destruct (before_request svc renew st1) as [[[]|e] st2] eqn:Hb.
      * destruct Hcase
          as [Hno|[(svc' & st1' & e' & st2' & H1 & H2)
                  |[[e ->]|[->| ->]]]];
          try reflexivity.
        -- now elim (Hno svc st1).
        -- injection H1 as <- <-. rewrite Hb in H2. discriminate.
      * reflexivity.
    + reflexivity.
  - intros svc st1 st2 Hs Hb.
    destruct (get_service_frame st Hs) as (_ & Hck & _).
    destruct (before_request_effects st1 svc renew Hb)
      as (_ & _ & _ & _ & Hck2 & _).
    rewrite list_files_unfold, Hs, Hb.
    destruct net; simpl; rewrite Hck2, Hck; reflexivity.
Qed.

(** X14 at the authorized manager: a listing whose response lacks
    ['files'], and one that fails, both give the empty list. *)
Lemma list_files_result_witness :
  fst (list_files 10 None Samples.renew_ok (ListOk None) Samples.st_authed)
    = Return [] /\
  fst (list_files 10 None Samples.renew_ok
         (ListRaises (HttpError 500 "backend error"))
         Samples.st_authed) = Return [].
Proof.
  split.
  - exact (proj1 (proj2 (list_files_result Samples.st_authed 10 None
                           Samples.renew_ok (ListOk None)))
                 (or_intror (or_intror (or_intror (or_introl eq_refl))))).
  - exact (proj1 (proj2 (list_files_result Samples.st_authed 10 None
                           Samples.renew_ok
                           (ListRaises (HttpError 500 "backend error"))))
                 (or_intror (or_intror (or_introl
                    (ex_intro _ (HttpError 500 "backend error")
                       eq_refl))))).
Defined.

(** * Properties of the scripts *)

(** ** Strings *)

Module PyStrFacts.
Import PyStr.

Lemma prefix_nil (s : string) : String.prefix "" s = true.
Proof. now destruct s. Qed.

Lemma prefix_self_app (p b : string) : String.prefix p (String.append p b) = true.
Proof.
  induction p as [|c p IH]; simpl; [apply prefix_nil|].
  destruct (ascii_dec c c); [exact IH | congruence].
Qed.

(** Only the first [length p] characters of a string decide whether [p] is
    a prefix of it. *)
Lemma prefix_app_long (p y z : string) :
  String.length p <= String.length y ->
  String.prefix p (String.append y z) = String.prefix p y.
Proof.
  revert y; induction p as [|c p IH]; intros y Hlen.
  - now rewrite !prefix_nil.
  - destruct y as [|d y]; simpl in *; [lia|].
    destruct (ascii_dec c d); [|reflexivity].
    apply IH. lia.
Qed.

Lemma occurs_app_left (p a s : string) :
  occurs p s = true -> occurs p (String.append a s) = true.
Proof.
  intros H. induction a as [|c a IH]; simpl; [exact H|].
  rewrite IH. apply orb_true_r.
Qed.

(** A string that contains [p] between two others contains [p]. *)
Lemma occurs_middle (p a b : string) :
  occurs p (String.append a (String.append p b)) = true.
Proof.
  apply occurs_app_left.
  destruct p as [|c p]; [now destruct b|].
  remember (String c p) as q.
  assert (H : String.prefix q (String.append q b) = true)
    by apply prefix_self_app.
  subst q. simpl in *.
  destruct (ascii_dec c c); [|congruence].
  now rewrite H.
Qed.

Lemma prefix_app_right (p y b : string) :
  String.prefix p y = true -> String.prefix p (String.append y b) = true.
Proof.
  revert y. induction p as [|d p IHp]; intros y H; [apply prefix_nil|].
  destruct y as [|e y]; [discriminate|]. simpl in *.
  destruct (ascii_dec d e); [|discriminate]. now apply IHp.
Qed.

Lemma occurs_app_right (p s b : string) :
  occurs p s = true -> occurs p (String.append s b) = true.
Proof.
  induction s as [|c s IH]; intros H.
  - destruct p as [|d p]; [now destruct b | discriminate].
  - simpl in H. apply orb_true_iff in H. destruct H as [H|H].
    + pose proof (prefix_app_right p (String c s) b H) as Hp.
      simpl in Hp |- *. now rewrite Hp.
    + simpl. rewrite (IH H). apply orb_true_r.
Qed.

(** A string without an occurrence of [old] is left as it is. *)
Lemma replace_absent (old new s : string) :
  occurs old s = false -> replace old new s = s.
Proof.
  unfold replace. induction s as [|c s IH]; intros H; [reflexivity|].
  change (occurs old (String c s)) with
    (String.prefix old (String c s) || occurs old s) in H.
  apply orb_false_iff in H. destruct H as [Hp Ho].
  change (replace_from old new 0 (String c s)) with
    (if String.prefix old (String c s)
     then String.append new
            (replace_from old new (String.length old - 1) s)
     else String c (replace_from old new 0 s)).
  rewrite Hp. now rewrite IH.
Qed.

Lemma lower_ascii_idempotent (c : ascii) :
  lower_ascii (lower_ascii c) = lower_ascii c.
Proof.
  destruct c as [[] [] [] [] [] [] [] []]; reflexivity.
Qed.

Lemma lower_idempotent (s : string) : lower (lower s) = lower s.
Proof.
  induction s as [|c s IH]; simpl; [reflexivity|].
  now rewrite lower_ascii_idempotent, IH.
Qed.

End PyStrFacts.

(** ** scripts/optimize_model.py *)

Module OptimizeModelFacts.
Import PyStr PyStrFacts OptimizeModel.

Lemma append_assoc (a b c : string) :
  String.append (String.append a b) c = String.append a (String.append b c).
Proof. induction a as [|x a IH]; simpl; [reflexivity | now rewrite IH]. Qed.

Lemma length_append (a b : string) :
  String.length (String.append a b) = String.length a + String.length b.
Proof. induction a as [|x a IH]; simpl; [reflexivity | now rewrite IH]. Qed.

(** The scan drops a leading ['module.'] and goes on behind it. *)
Lemma clean_key_prefix (b : string) :
  clean_key (String.append "module." b) = clean_key b.
Proof.
  unfold clean_key, replace.
  change (replace_from "module." "" 0 (String.append "module." b)) with
    (if String.prefix "module." (String.append "module." b)
     then replace_from "module." "" 0 b
     else String "m" (replace_from "module." "" 0
                        (String.append "odule." b))).
  now rewrite prefix_self_app.
Qed.

(** Before the first occurrence nothing changes. *)
Lemma clean_key_app (a b : string) :
  occurs "module." (String.append a "module") = false ->
  clean_key (String.append a (String.append "module." b))
    = String.append a (clean_key b).
Proof.
  induction a as [|c a IH]; intros H.
  - apply clean_key_prefix.
  - change (occurs "module." (String.append (String c a) "module")) with
      (String.prefix "module." (String c (String.append a "module"))
       || occurs "module." (String.append a "module")) in H.
    apply orb_false_iff in H. destruct H as [Hp Ho].
    assert (Hp' : String.prefix "module."
                    (String c (String.append a (String.append "module." b)))
                  = false).
    { replace (String c (String.append a (String.append "module." b)))
        with (String.append (String c (String.append a "module"))
                            (String.append "." b)).
      - rewrite prefix_app_long; [exact Hp|].
        simpl. rewrite length_append. simpl. lia.
      - simpl. f_equal. now rewrite append_assoc. }
    unfold clean_key, replace in *.
    change (replace_from "module." "" 0
              (String.append (String c a) (String.append "module." b)))
      with (if String.prefix "module."
                 (String c (String.append a (String.append "module." b)))
            then String.append ""
                   (replace_from "module." "" (String.length "module." - 1)
                      (String.append a (String.append "module." b)))
            else String c (replace_from "module." "" 0
                             (String.append a (String.append "module." b)))).
    rewrite Hp'.
    change (String c (replace_from "module." "" 0
                        (String.append a (String.append "module." b)))
            = String c (String.append a (replace_from "module." "" 0 b))).
    f_equal. exact (IH Ho).
Qed.

Section CleanedFacts.

Context {V : Type}.

Lemma dict_store_fresh (d : list (string * V)) (k : string) (v : V) :
  ~ In k (map fst d) -> dict_store d k v = d ++ [(k, v)].
Proof.
  induction d as [|[k' v'] d IH]; intros Hn; simpl; [reflexivity|].
  destruct (String.eqb_spec k k') as [->|Hne].
  - elim Hn. now left.
  - rewrite IH; [reflexivity|]. intros Hin. apply Hn. now right.
Qed.

Lemma length_dict_store (d : list (string * V)) (k : string) (v : V) :
  List.length (dict_store d k v) <= S (List.length d).
Proof.
  induction d as [|[k' v'] d IH]; simpl; [lia|].
  destruct (String.eqb k k'); simpl; lia.
Qed.

Lemma fold_store_fresh (f : string -> string) (items acc : list (string * V)) :
  NoDup (map fst acc ++ map (fun kv => f (fst kv)) items) ->
  fold_left (fun d kv => dict_store d (f (fst kv)) (snd kv)) items acc
    = acc ++ map (fun kv => (f (fst kv), snd kv)) items.
Proof.
  revert acc. induction items as [|[k v] items IH]; intros acc Hnd; simpl.
  - now rewrite app_nil_r.
  - simpl in Hnd.
    rewrite dict_store_fresh.
    + rewrite IH.
      * now rewrite <- app_assoc.
      * rewrite map_app. simpl. rewrite <- app_assoc. exact Hnd.
    + apply NoDup_remove_2 in Hnd. intros Hin. apply Hnd.
      apply in_or_app. now left.
Qed.

Lemma length_fold_store (f : string -> string)
    (items acc : list (string * V)) :
  List.length
    (fold_left (fun d kv => dict_store d (f (fst kv)) (snd kv)) items acc)
    <= List.length acc + List.length items.
Proof.
  revert acc. induction items as [|[k v] items IH]; intros acc; simpl;
    [lia|].
  specialize (IH (dict_store acc (f k) v)).
  pose proof (length_dict_store acc (f k) v). lia.
Qed.

End CleanedFacts.

End OptimizeModelFacts.

(** X15.  [extract_state_dict] gives the ['state_dict'] entry of a
    dictionary that has one and gives back any other checkpoint unchanged,
    whatever its first value is; so a dictionary that keeps its weights
    under another key is returned whole.  From the dictionary that
    [action_strip] saves it extracts the very state that went in, and
    stripping a stripped checkpoint changes nothing but the time stamp. *)
Theorem extract_state_dict_or_whole
    (ckpt : OptimizeModel.pyobj) (t1 t2 : string) :
  (forall items sd,
      ckpt = OptimizeModel.PyDict items ->
      OptimizeModel.dict_lookup "state_dict" items = Some sd ->
      OptimizeModel.extract_state_dict ckpt = sd) /\
  ((forall items, ckpt = OptimizeModel.PyDict items ->
                  OptimizeModel.dict_lookup "state_dict" items = None) ->
   OptimizeModel.extract_state_dict ckpt = ckpt) /\
  OptimizeModel.extract_state_dict (OptimizeModel.minimal ckpt t1)
    = OptimizeModel.extract_state_dict ckpt /\
  OptimizeModel.minimal (OptimizeModel.minimal ckpt t1) t2
    = OptimizeModel.minimal ckpt t2.
Proof.
  repeat split.
  - intros items sd -> Hl. simpl. now rewrite Hl.
  - intros Hno. destruct ckpt as [d|s|n|items]; try reflexivity.
    simpl. rewrite (Hno items eq_refl).
    destruct items as [|[k v] items]; [reflexivity|].
    now destruct (OptimizeModel.is_tensor v).
Qed.

(** X15 at a checkpoint that stores its weights under ['model_state'],
    next to the optimizer state: it is returned whole. *)
Lemma extract_state_dict_or_whole_witness :
  OptimizeModel.extract_state_dict
    (OptimizeModel.PyDict
       [("model_state"%string,
         OptimizeModel.PyDict
           [("conv1.weight"%string, OptimizeModel.Tensor [1; 2]%Z)]);
        ("optimizer"%string, OptimizeModel.PyDict [])])
    = OptimizeModel.PyDict
        [("model_state"%string,
          OptimizeModel.PyDict
            [("conv1.weight"%string, OptimizeModel.Tensor [1; 2]%Z)]);
         ("optimizer"%string, OptimizeModel.PyDict [])].
Proof.
  apply (proj1 (proj2 (extract_state_dict_or_whole
                         (OptimizeModel.PyDict
                            [("model_state"%string,
                              OptimizeModel.PyDict
                                [("conv1.weight"%string,
                                  OptimizeModel.Tensor [1; 2]%Z)]);
                             ("optimizer"%string, OptimizeModel.PyDict [])])
                         "" ""))).
  intros items H. injection H as <-. reflexivity.
Defined.

(** X16.  The key cleaning removes ['module.'] wherever it first occurs,
    not only at the front: for a key [a ++ 'module.' ++ b] with no earlier
    occurrence, the result is [a] followed by the cleaned [b], which is
    [a ++ b] when [b] has no occurrence. *)
Theorem clean_key_removes_first_occurrence (a b : string) :
  PyStr.occurs "module." (String.append a "module") = false ->
  OptimizeModel.clean_key (String.append a (String.append "module." b))
    = String.append a (OptimizeModel.clean_key b) /\
  (PyStr.occurs "module." b = false ->
   OptimizeModel.clean_key (String.append a (String.append "module." b))
     = String.append a b).
Proof.
  intros H. split.
  - now apply OptimizeModelFacts.clean_key_app.
  - intros Hb. rewrite (OptimizeModelFacts.clean_key_app a b H).
    unfold OptimizeModel.clean_key.
    now rewrite (PyStrFacts.replace_absent "module." "" b Hb).
Qed.

(** X16 at a layer called ['submodule.weight']: its key becomes
    ['subweight']. *)
Lemma clean_key_removes_first_occurrence_witness :
  OptimizeModel.clean_key "submodule.weight" = "subweight"%string.
Proof.
  exact (proj2 (clean_key_removes_first_occurrence "sub" "weight" eq_refl)
               eq_refl).
Defined.

(** X17.  For a state whose keys are distinct and free of ['module.'],
    cleaning the keys of its ['module.']-prefixed copy gives the state
    back, entries in order; and for any state the cleaned dictionary has
    at most as many entries as the state. *)
Theorem cleaned_undoes_module_prefix
    {V : Type} (state : list (string * V)) :
  NoDup (map fst state) ->
  (forall k, In k (map fst state) -> PyStr.occurs "module." k = false) ->
  OptimizeModel.cleaned
    (map (fun kv => (String.append "module." (fst kv), snd kv)) state)
    = state /\
  forall other : list (string * V),
    List.length (OptimizeModel.cleaned other) <= List.length other.
Proof.
  intros Hnd Hfree. split.
  - unfold OptimizeModel.cleaned.
    assert (Hkeys : map (fun kv : string * V =>
                           OptimizeModel.clean_key (fst kv))
                        (map (fun kv => (String.append "module." (fst kv),
                                         snd kv)) state)
                    = map fst state).
    { rewrite map_map. apply map_ext_in. intros [k v] Hin. cbn [fst snd].
      rewrite OptimizeModelFacts.clean_key_prefix.
      unfold OptimizeModel.clean_key.
      apply PyStrFacts.replace_absent. apply Hfree.
      now apply (in_map fst) in Hin. }
    rewrite (OptimizeModelFacts.fold_store_fresh OptimizeModel.clean_key).
    + cbn [app]. rewrite map_map.
      rewrite <- (map_id state) at 2. apply map_ext_in.
      intros [k v] Hin. cbn [fst snd].
      rewrite OptimizeModelFacts.clean_key_prefix.
      unfold OptimizeModel.clean_key.
      rewrite PyStrFacts.replace_absent; [reflexivity|].
      apply Hfree. now apply (in_map fst) in Hin.
    + cbn [map app]. now rewrite Hkeys.
  - intros other. unfold OptimizeModel.cleaned.
    pose proof (OptimizeModelFacts.length_fold_store
                  OptimizeModel.clean_key other []) as H.
    simpl in H. exact H.
Qed.

(** X17 at a state of two entries. *)
Lemma cleaned_undoes_module_prefix_witness :
  OptimizeModel.cleaned
    (map (fun kv => (String.append "module." (fst kv), snd kv))
         [("conv1.weight"%string, 1); ("conv1.bias"%string, 2)])
    = [("conv1.weight"%string, 1); ("conv1.bias"%string, 2)] /\
  forall other : list (string * nat),
    List.length (OptimizeModel.cleaned other) <= List.length other.
Proof.
  apply (@cleaned_undoes_module_prefix nat
           [("conv1.weight"%string, 1); ("conv1.bias"%string, 2)]).
  - repeat constructor; simpl; intuition discriminate.
  - intros k [<-|[<-|[]]]; reflexivity.
Defined.

(** X18.  [action_torchscript] picks the CNN exactly for the names that
    contain ['cnn'] in any letter case, even when they also say ['lstm'];
    it picks the LSTM exactly for ['ecglstm'] and ['lstm'] in any letter
    case; every other name raises the [ValueError]; and the letter case of
    the name never matters. *)
Theorem select_model_choice (model_name : string) (input_length num_classes : Z) :
  (OptimizeModel.select_model model_name input_length num_classes
     = Return (OptimizeModel.ECGCNN input_length num_classes)
   <-> PyStr.occurs "cnn" (PyStr.lower model_name) = true) /\
  (OptimizeModel.select_model model_name input_length num_classes
     = Return (OptimizeModel.ECGLSTM num_classes)
   <-> PyStr.lower model_name = "ecglstm"%string \/
       PyStr.lower model_name = "lstm"%string) /\
  (OptimizeModel.select_model model_name input_length num_classes
     = Raise (ValueError OptimizeModel.unsupported_model_msg)
   <-> PyStr.occurs "cnn" (PyStr.lower model_name) = false /\
       PyStr.lower model_name <> "ecglstm"%string /\
       PyStr.lower model_name <> "lstm"%string) /\
  OptimizeModel.select_model (PyStr.lower model_name)
      input_length num_classes
    = OptimizeModel.select_model model_name input_length num_classes.
Proof.
  unfold OptimizeModel.select_model.
  rewrite PyStrFacts.lower_idempotent.
  set (L := PyStr.lower model_name).
  assert (Hcnn : (L =? "ecgcnn")%string || PyStr.occurs "cnn" L
                 = PyStr.occurs "cnn" L).
  { destruct (String.eqb_spec L "ecgcnn") as [->|_]; reflexivity. }
  rewrite Hcnn.
  destruct (PyStr.occurs "cnn" L) eqn:Hocc.
  - repeat split; try discriminate; auto.
    + intros [E|E]; rewrite E in Hocc; discriminate.
    + intros [E _]; discriminate.
  - destruct (String.eqb_spec L "ecglstm") as [E1|N1];
      destruct (String.eqb_spec L "lstm") as [E2|N2]; simpl;
      repeat split; try discriminate; try congruence; auto;
      try (intros [H|H]; congruence);
      try (intros (_ & H1 & H2); congruence).
Qed.

(** ** test_setup.py *)

Module TestSetupFacts.
Import TestSetup.




Lemma check_entries_verdict (content : string) (entries : list string)
    (all_present : bool) (lines : list string) :
  fst (check_entries content entries all_present lines)
    = all_present && forallb (fun e => PyStr.occurs e content) entries.
Proof.
  revert all_present lines.
  induction entries as [|e entries IH]; intros all_present lines; simpl.
  - now rewrite andb_true_r.
  - destruct (PyStr.occurs e content); rewrite IH; simpl.
    + reflexivity.
    + now rewrite andb_false_r.
Qed.

End TestSetupFacts.


(** X20.  [check_gitignore] looks for the two names as substrings of the
    whole text: it returns [True] exactly when both occur somewhere, so
    also when they stand in a comment or behind a negation mark, in either
    order.  Without a [.gitignore] file it raises after printing its
    heading. *)
Theorem check_gitignore_is_substring_test
    (content pre mid post : string) :
  snd (TestSetup.check_gitignore (Some content))
    = Return (PyStr.occurs "credentials.json" content
              && PyStr.occurs "token.pickle" content) /\
  snd (TestSetup.check_gitignore
         (Some (String.append pre
                  (String.append "credentials.json"
                     (String.append mid
                        (String.append "token.pickle" post))))))
    = Return true /\
  snd (TestSetup.check_gitignore
         (Some (String.append pre
                  (String.append "token.pickle"
                     (String.append mid
                        (String.append "credentials.json" post))))))
    = Return true /\
  snd (TestSetup.check_gitignore None)
    = Raise (FileNotFoundError "No such file or directory") /\
  List.length (fst (TestSetup.check_gitignore None)) = 1.
Proof.
  assert (Hgen : forall c,
             snd (TestSetup.check_gitignore (Some c))
               = Return (PyStr.occurs "credentials.json" c
                         && PyStr.occurs "token.pickle" c)).
  { intros c. unfold TestSetup.check_gitignore.
    set (header := String.append newline
                     (String.append newline
                        (String.append "Checking .gitignore security..."
                                       newline))).
    pose proof (TestSetupFacts.check_entries_verdict c
                  TestSetup.required_entries true [header]) as H.
    destruct (TestSetup.check_entries c TestSetup.required_entries true
                [header]) as [all_present lines].
    simpl in H |- *. rewrite H. now rewrite andb_true_r. }
  repeat split.
  - apply Hgen.
  - rewrite Hgen.
    rewrite PyStrFacts.occurs_middle.
    rewrite <- !OptimizeModelFacts.append_assoc.
    rewrite OptimizeModelFacts.append_assoc.
    now rewrite PyStrFacts.occurs_middle.
  - rewrite Hgen.
    rewrite (PyStrFacts.occurs_middle "token.pickle").
    rewrite <- !OptimizeModelFacts.append_assoc.
    rewrite OptimizeModelFacts.append_assoc.
    now rewrite PyStrFacts.occurs_middle.
Qed.
